(** * SpartaCustomResource: the Lambda function and the custom resource of main.go

    A shallow embedding of [src/main.go].  The three lifecycle methods of
    [SpartaHelloWorldResource], the provider factory registered by [init] and
    the [helloWorld] Lambda function are written as programs of a small
    store-passing monad: a heap of addressable cells (Go pointers), the lines
    handed to loggers and to standard output, and the package-level provider
    table of go-cloudformation.

    What main.go calls but does not define is modelled from the public
    behaviour of the libraries it imports:
    - [encoding/json]: [json.Unmarshal] into a pointer to a struct;
    - go-cloudformation ([gocf]): the struct [CloudFormationCustomResource],
      [StringExpr] with its [UnmarshalJSON], the provider table and
      [NewResourceByType];
    - logrus and [fmt]: the logging calls, recorded as emitted lines.
    Where these libraries differ from one release to the next (the intrinsic
    functions go-cloudformation knows, the resource types it answers itself,
    how [encoding/json] reports the error of an [Unmarshaler] and the path
    of a promoted field), the behaviour is a parameter, [Libraries].  The
    providers that imported packages register before main's [init] are
    whatever the provider table holds when [init] runs.
    Loggers, sessions and events handed to the code are taken to be non-nil,
    as the hosting framework supplies them. *)

From Stdlib Require Import ZArith Ascii String.
From stdpp Require Import base option list strings gmap.

Local Open Scope string_scope.
Local Set Warnings "-register-all".

(** ** JSON documents and [json.RawMessage] *)

(** A JSON value.  Object members are kept in document order, duplicates
    included, because the decoder visits them one after the other. *)
Inductive JSON : Type :=
| JNull
| JBool (b : bool)
| JNumber (literal : string)
| JString (s : string)
| JArray (elements : list JSON)
| JObject (members : list (string * JSON)).

(** [json.RawMessage] is a byte slice.  The model keeps what the scanner of
    [encoding/json] makes of those bytes: the syntax error that [checkValid]
    reports, or the document they spell. *)
Inductive RawMessage : Type :=
| Malformed (msg : string) (offset : Z)
| Document (v : JSON).

(** The word [encoding/json] uses for the kind of a value in its errors. *)
Definition valueKind (v : JSON) : string :=
  match v with
  | JNull => "null"
  | JBool _ => "bool"
  | JNumber _ => "number"
  | JString _ => "string"
  | JArray _ => "array"
  | JObject _ => "object"
  end.

(** ** Go [error] values *)

Inductive error : Type :=
| SyntaxError (msg : string) (Offset : Z)
| UnmarshalTypeError (Value : string) (Type_ : string) (Struct Field : string)
| errorString (msg : string).

(** The [Error()] method. *)
Definition Error (e : error) : string :=
  match e with
  | SyntaxError msg _ => msg
  | UnmarshalTypeError v t s f =>
      if (String.eqb s "" && String.eqb f "")%bool
      then "json: cannot unmarshal " ++ v ++ " into Go value of type " ++ t
      else "json: cannot unmarshal " ++ v ++ " into Go struct field "
             ++ s ++ "." ++ f ++ " of type " ++ t
  | errorString msg => msg
  end.


(** [strings.Contains]. *)
Fixpoint isPrefix (p s : string) : bool :=
  match p, s with
  | EmptyString, _ => true
  | String a p', String b s' => (Ascii.eqb a b && isPrefix p' s')%bool
  | String _ _, EmptyString => false
  end.

Fixpoint Contains (s substr : string) : bool :=
  (isPrefix substr s ||
   match s with
   | EmptyString => false
   | String _ s' => Contains s' substr
   end)%bool.

(** ** The data of main.go *)

Definition loc := nat.

(** [gocf.StringExpr]: a literal, or an intrinsic function call kept as the
    document it was read from. *)
Record StringExpr : Type := mkStringExpr {
  Func : option JSON;
  Literal : string
}.

(** [gocf.CloudFormationCustomResource], embedded by value. *)
Record CloudFormationCustomResource : Type := mkCloudFormationCustomResource {
  ServiceToken : option loc;
  ResourceTypeName : string
}.

(** [SpartaCustomResourceRequest], main.go:52. *)
Record SpartaCustomResourceRequest : Type := mkSpartaCustomResourceRequest {
  Message : option loc
}.

(** [SpartaHelloWorldResource], main.go:61: both structs embedded by value. *)
Record SpartaHelloWorldResource : Type := mkSpartaHelloWorldResource {
  customResource : CloudFormationCustomResource;
  request : SpartaCustomResourceRequest
}.

(** The composite literal [SpartaHelloWorldResource{}]. *)
Definition emptyResource : SpartaHelloWorldResource :=
  {| customResource := {| ServiceToken := None; ResourceTypeName := "" |};
     request := {| Message := None |} |}.

(** main.go:45. *)
Definition spartaHelloWorldResourceType : string :=
  "Custom::sparta::HelloWorldResource".

(** [spartaAWSResource.CloudFormationLambdaEvent], the fields read here. *)
Record CloudFormationLambdaEvent : Type := mkEvent {
  RequestType : string;
  ResourceType : string;
  ResourceProperties : RawMessage
}.

(** [map[string]interface{}]: [None] is the nil map. *)
Inductive Value : Type :=
| VString (s : string).

Definition Payload : Type := option (gmap string Value).

(** Loggers are opaque handles; an entry is a logger with request fields. *)
Definition Logger : Type := nat.

Record Entry : Type := mkEntry {
  entryLogger : Logger;
  entryRequestID : string
}.

Inductive Session : Type :=
| awsSessionHandle (id : nat).

Inductive Level : Type :=
| InfoLevel
| WarnLevel.

Inductive Emission : Type :=
| LoggerLine (logger : Logger) (level : Level) (msg : string)
| EntryLine (entry : Entry) (level : Level) (msg : string)
| Printed (text : string).

(** The closures handed to [gocf.RegisterCustomResourceProvider]: the one
    main.go builds in [init], and those of the packages it imports, which
    register providers for their own custom resources before main's [init]
    runs.  Of an imported provider the model keeps the type names for which
    it returns a resource. *)
Inductive CustomResourceProvider : Type :=
| customResourceFactoryClosure
| importedProvider (known : string → bool).

(** ** The store *)

(** A cell holds a value of main.go, or a resource of another package, of
    which only the type name is kept. *)
Inductive cell : Type :=
| CResource (c : SpartaHelloWorldResource)
| CStringExpr (x : StringExpr)
| CImported (typeName : string).

Record State : Type := mkState {
  heap : list cell;
  output : list Emission;
  customResourceProviders : list CustomResourceProvider
}.

(** A store with nothing in it, for the examples.  It is not where a
    process starts: by the time main's [init] runs, the packages it imports
    have registered their providers. *)
Definition initialState : State :=
  {| heap := []; output := []; customResourceProviders := [] |}.

Inductive PanicValue : Type :=
| NilPointerDereference.

Definition panicMessage (v : PanicValue) : string :=
  match v with
  | NilPointerDereference =>
      "runtime error: invalid memory address or nil pointer dereference"
  end.

(** A computation returns a value and a new store, panics, or is [Stuck] on
    a store that no Go program builds (a pointer to a cell of another type). *)
Inductive Outcome (A : Type) : Type :=
| Returns (a : A) (σ : State)
| Panics (v : PanicValue)
| Stuck.

Arguments Returns {A} a σ.
Arguments Panics {A} v.
Arguments Stuck {A}.

Definition M (A : Type) : Type := State → Outcome A.

Definition run {A} (m : M A) (σ : State) : Outcome A := m σ.

#[global] Instance M_ret : MRet M := λ A a σ, Returns a σ.

#[global] Instance M_bind : MBind M := λ A B f m σ,
  match m σ with
  | Returns a σ' => f a σ'
  | Panics v => Panics v
  | Stuck => Stuck
  end.

Definition panic {A} (v : PanicValue) : M A := λ _, Panics v.

(** [new(T)] and [&T{...}]: a cell at the first unused address. *)
Definition new (v : cell) : M loc := λ σ,
  Returns (length (heap σ))
          {| heap := heap σ ++ [v]; output := output σ;
             customResourceProviders := customResourceProviders σ |}.

Definition store (l : loc) (v : cell) : M unit := λ σ,
  Returns tt {| heap := <[l := v]> (heap σ); output := output σ;
                customResourceProviders := customResourceProviders σ |}.

Definition loadResource (l : loc) : M SpartaHelloWorldResource := λ σ,
  match heap σ !! l with
  | Some (CResource c) => Returns c σ
  | _ => Stuck
  end.

Definition loadStringExpr (l : loc) : M StringExpr := λ σ,
  match heap σ !! l with
  | Some (CStringExpr x) => Returns x σ
  | _ => Stuck
  end.

(** [p.f] for a pointer [p]: a nil pointer panics. *)
Definition deref (p : option loc) : M StringExpr :=
  match p with
  | None => panic NilPointerDereference
  | Some l => loadStringExpr l
  end.

Definition emit (e : Emission) : M unit := λ σ,
  Returns tt {| heap := heap σ; output := output σ ++ [e];
                customResourceProviders := customResourceProviders σ |}.

Section Program.

(** ** What the libraries decide *)

(** One member of an object is decoded: the decoder goes on to the next
    member, carrying the first type error it has met ([saveError]), or it
    stops with an error. *)
Inductive step : Type :=
| Next (savedError : option error)
| Abort (err : error).

(** What differs between releases of the libraries and of the toolchain.
    - [unmarshalStringFunc]: the [UnmarshalJSON] of [StringExpr] on a
      document that is not a string, an intrinsic function call ([Ref],
      [Fn::GetAtt], ...) or an error; which functions go-cloudformation
      knows is its own business.
    - [ownResourceType]: the type names [gocf.NewResourceByType] answers
      itself, those of CloudFormation's resources; none of them is a
      [Custom::] name.
    - [unmarshalerFailed]: what the decoder of [encoding/json] does when the
      [UnmarshalJSON] of the field named by its first argument has returned
      the error given last, the second argument being the type error saved
      so far.  Whether the decoder stops, which of the two errors it
      reports, and whether it writes the struct and the field into an
      [UnmarshalTypeError], has changed between releases of Go.
    - [embeddedPath]: what stands before the name of a promoted field in
      [UnmarshalTypeError.Field]: nothing, or the path through the embedded
      struct, as in [CloudFormationCustomResource.]. *)
Class Libraries : Type := {
  unmarshalStringFunc : JSON → StringExpr → error + StringExpr;
  ownResourceType : string → bool;
  ownResourceType_Custom :
    ∀ typeName, isPrefix "Custom::" typeName = true → ownResourceType typeName = false;
  unmarshalerFailed : string → option error → error → step;
  embeddedPath : string → string
}.

Context {G : Libraries}.

(** ** go-cloudformation: the [UnmarshalJSON] of [StringExpr] *)

(** A JSON string becomes the literal; any other document is for
    [unmarshalStringFunc]. *)

Definition StringExpr_UnmarshalJSON (data : JSON) (x : StringExpr)
  : error + StringExpr :=
  match data with
  | JString v => inr {| Func := None; Literal := v |}
  | _ => unmarshalStringFunc data x
  end.

(** ** encoding/json: [json.Unmarshal] into [*SpartaHelloWorldResource] *)

(** The fields the decoder sees, the promoted ones of the embedded structs
    included, in declaration order. *)
Inductive field : Type :=
| fServiceToken
| fResourceTypeName
| fMessage.

Definition fieldName (f : field) : string :=
  match f with
  | fServiceToken => "ServiceToken"
  | fResourceTypeName => "ResourceTypeName"
  | fMessage => "Message"
  end.

Definition fields : list field := [fServiceToken; fResourceTypeName; fMessage].

Definition upper (a : ascii) : ascii :=
  if (Ascii.leb "a" a && Ascii.leb a "z")%bool
  then ascii_of_nat (nat_of_ascii a - 32)
  else a.

(** [foldName]: upper case for ASCII letters; of the other runes only
    U+017F (long s, bytes 197 191) and U+212A (Kelvin sign, bytes 226 132
    170) fold to an ASCII letter. *)
Fixpoint foldName (s : string) : string :=
  match s with
  | EmptyString => EmptyString
  | String a rest =>
      match rest with
      | String b rest' =>
          if (Ascii.eqb a (ascii_of_nat 197) && Ascii.eqb b (ascii_of_nat 191))%bool
          then String "S" (foldName rest')
          else
            match rest' with
            | String c rest'' =>
                if (Ascii.eqb a (ascii_of_nat 226) && Ascii.eqb b (ascii_of_nat 132)
                    && Ascii.eqb c (ascii_of_nat 170))%bool
                then String "K" (foldName rest'')
                else String (upper a) (foldName rest)
            | EmptyString => String (upper a) (foldName rest)
            end
      | EmptyString => String (upper a) EmptyString
      end
  end.

(** An exact match of the key wins; otherwise the first field equal to it
    under case folding. *)
Definition fieldByName (key : string) : option field :=
  match find (λ f, String.eqb (fieldName f) key) fields with
  | Some f => Some f
  | None => find (λ f, String.eqb (foldName (fieldName f)) (foldName key)) fields
  end.

Definition setServiceToken (p : option loc) (c : SpartaHelloWorldResource) :=
  {| customResource := {| ServiceToken := p;
                          ResourceTypeName := ResourceTypeName (customResource c) |};
     request := request c |}.

Definition setResourceTypeName (s : string) (c : SpartaHelloWorldResource) :=
  {| customResource := {| ServiceToken := ServiceToken (customResource c);
                          ResourceTypeName := s |};
     request := request c |}.

Definition setMessage (p : option loc) (c : SpartaHelloWorldResource) :=
  {| customResource := customResource c;
     request := {| Message := p |} |}.

(** [saveError]: the first type error is the one that is kept. *)
Definition saveError (saved : option error) (e : error) : option error :=
  match saved with
  | Some _ => saved
  | None => Some e
  end.

(** The type error of the decoder at the field ResourceTypeName, the one
    field of the struct it decodes itself, for a value of the given kind. *)
Definition mismatchError (kind : string) : error :=
  UnmarshalTypeError kind "string" "SpartaHelloWorldResource"
    (embeddedPath "ResourceTypeName" ++ "ResourceTypeName").

Definition zeroStringExpr : StringExpr := {| Func := None; Literal := "" |}.

(** The two fields of type [*StringExpr]. *)
Inductive pointerField : Type :=
| ServiceTokenField
| MessageField.

Definition pointerFieldName (f : pointerField) : string :=
  match f with
  | ServiceTokenField => "ServiceToken"
  | MessageField => "Message"
  end.

Definition getPointer (f : pointerField) (c : SpartaHelloWorldResource) : option loc :=
  match f with
  | ServiceTokenField => ServiceToken (customResource c)
  | MessageField => Message (request c)
  end.

Definition setPointer (f : pointerField) (p : option loc)
    (c : SpartaHelloWorldResource) : SpartaHelloWorldResource :=
  match f with
  | ServiceTokenField => setServiceToken p c
  | MessageField => setMessage p c
  end.

(** [indirect]: the address to decode into.  A nil pointer is first made to
    point to a new zero value. *)
Definition indirect (f : pointerField) (pc : loc) : M loc :=
  c ← loadResource pc;
  match getPointer f c with
  | Some l => mret l
  | None =>
      l ← new (CStringExpr zeroStringExpr);
      store pc (CResource (setPointer f (Some l) c));;
      mret l
  end.

(** A field of type [*StringExpr]: [null] clears the pointer; any other
    value is handed to the [UnmarshalJSON] of the [StringExpr] pointed at,
    and what becomes of its error is for [unmarshalerFailed]. *)
Definition decodeStringExprField (f : pointerField) (v : JSON) (pc : loc)
    (saved : option error) : M step :=
  match v with
  | JNull =>
      c ← loadResource pc;
      store pc (CResource (setPointer f None c));;
      mret (Next saved)
  | _ =>
      px ← indirect f pc;
      x ← loadStringExpr px;
      match StringExpr_UnmarshalJSON v x with
      | inl e => mret (unmarshalerFailed (pointerFieldName f) saved e)
      | inr x' => store px (CStringExpr x');; mret (Next saved)
      end
  end.

(** A field of type [string]. *)
Definition decodeStringField (v : JSON) (pc : loc) (saved : option error) : M step :=
  match v with
  | JString s =>
      c ← loadResource pc;
      store pc (CResource (setResourceTypeName s c));;
      mret (Next saved)
  | JNull => mret (Next saved)
  | _ => mret (Next (saveError saved (mismatchError (valueKind v))))
  end.

Definition member (pc : loc) (kv : string * JSON) (saved : option error) : M step :=
  match fieldByName kv.1 with
  | None => mret (Next saved)
  | Some fServiceToken => decodeStringExprField ServiceTokenField kv.2 pc saved
  | Some fResourceTypeName => decodeStringField kv.2 pc saved
  | Some fMessage => decodeStringExprField MessageField kv.2 pc saved
  end.

(** The members of an object, in document order.  The decoding ends with
    the type error saved on the way, if any; whether the error of an
    [UnmarshalJSON] ends it earlier, and with which error, is for
    [unmarshalerFailed] to say. *)
Fixpoint object (members : list (string * JSON)) (pc : loc)
    (saved : option error) : M (option error) :=
  match members with
  | [] => mret saved
  | kv :: rest =>
      s ← member pc kv saved;
      match s with
      | Next saved' => object rest pc saved'
      | Abort e => mret (Some e)
      end
  end.

(** [json.Unmarshal(data, &command)]: the returned [error] is [None] for
    Go's nil.  A syntax error leaves the target alone; [null] is a no-op on
    a struct; anything but an object is a type error. *)
Definition json_Unmarshal (data : RawMessage) (pc : loc) : M (option error) :=
  match data with
  | Malformed msg off => mret (Some (SyntaxError msg off))
  | Document JNull => mret None
  | Document (JObject members) => object members pc None
  | Document v =>
      mret (Some (UnmarshalTypeError (valueKind v)
                    "main.SpartaHelloWorldResource" "" ""))
  end.

(** ** logrus and fmt *)

(** [fmt.Sprint] of string operands: no space is added between strings. *)
Definition Sprint (args : list string) : string := String.concat "" args.

Definition Logger_Info (logger : Logger) (args : list string) : M unit :=
  emit (LoggerLine logger InfoLevel (Sprint args)).

Definition Logger_Warn (logger : Logger) (args : list string) : M unit :=
  emit (LoggerLine logger WarnLevel (Sprint args)).

Definition Entry_Info (entry : Entry) (args : list string) : M unit :=
  emit (EntryLine entry InfoLevel (Sprint args)).

Definition Printf (format : string) : M unit := emit (Printed format).

(** ** The Lambda function, main.go:21 *)

Inductive ContextKey : Type :=
| ContextKeyLogger
| ContextKeyRequestLogger
| contextKey (name : string).

(** A value of type [interface{}] as [ctx.Value] returns it. *)
Inductive any : Type :=
| anyNil
| anyLogger (logger : Logger)
| anyEntry (entry : Entry)
| anyOther (description : string).

Definition Context : Type := ContextKey → any.

Definition helloWorldGreeting : string :=
  "Hello World 👋. Welcome to AWS Lambda! 🙌🎉🍾".

Definition helloWorld (ctx : Context) : M (string * option error) :=
  let logger := match ctx ContextKeyLogger with
                | anyLogger l => Some l
                | _ => None
                end in
  match logger with
  | Some l => Logger_Info l ["Accessing structured logger 🙌"]
  | None => mret tt
  end;;
  let contextLogger := match ctx ContextKeyRequestLogger with
                       | anyEntry e => Some e
                       | _ => None
                       end in
  match contextLogger, logger with
  | Some e, _ =>
      Entry_Info e ["Accessing request-scoped log, with request ID field"]
  | None, Some l => Logger_Warn l ["Failed to access scoped logger"]
  | None, None => Printf "Failed to access any logger"
  end;;
  mret (helloWorldGreeting, None).

(** ** The custom resource, main.go:67-104 *)

(** The receiver is passed by value: [command] is a local of the method, and
    since its address is taken it lives in a cell of its own. *)
Definition Create (command : SpartaHelloWorldResource) (awsSession : Session)
    (event : CloudFormationLambdaEvent) (logger : Logger)
  : M (Payload * option error) :=
  pcommand ← new (CResource command);
  requestPropsErr ← json_Unmarshal (ResourceProperties event) pcommand;
  match requestPropsErr with
  | Some err => mret (None, Some err)
  | None =>
      command' ← loadResource pcommand;
      message ← deref (Message (request command'));
      Logger_Info logger ["create: "; Literal message];;
      mret (Some {[ "Resource" := VString ("Created message: " ++ Literal message) ]},
            None)
  end.

Definition Update (command : SpartaHelloWorldResource) (awsSession : Session)
    (event : CloudFormationLambdaEvent) (logger : Logger)
  : M (Payload * option error) :=
  pcommand ← new (CResource command);
  requestPropsErr ← json_Unmarshal (ResourceProperties event) pcommand;
  match requestPropsErr with
  | Some err => mret (None, Some err)
  | None =>
      command' ← loadResource pcommand;
      message ← deref (Message (request command'));
      Logger_Info logger ["update: "; Literal message];;
      mret (None, None)
  end.

Definition Delete (command : SpartaHelloWorldResource) (awsSession : Session)
    (event : CloudFormationLambdaEvent) (logger : Logger)
  : M (Payload * option error) :=
  pcommand ← new (CResource command);
  requestPropsErr ← json_Unmarshal (ResourceProperties event) pcommand;
  match requestPropsErr with
  | Some err => mret (None, Some err)
  | None =>
      command' ← loadResource pcommand;
      message ← deref (Message (request command'));
      Logger_Info logger ["delete: "; Literal message];;
      mret (None, None)
  end.

(** ** Registration, main.go:108 *)

(** The closure of [init]: [&SpartaHelloWorldResource{}] for the one type,
    the nil interface for any other string. *)
Definition customResourceFactory (resourceType : string) : M (option loc) :=
  if String.eqb resourceType spartaHelloWorldResourceType
  then l ← new (CResource emptyResource); mret (Some l)
  else mret None.






(** ** What the three methods share *)

(** The three methods differ in the word they log and in the payload they
    build from the decoded literal. *)
Definition lifecycle (verb : string) (result : string → Payload)
    (command : SpartaHelloWorldResource) (event : CloudFormationLambdaEvent)
    (logger : Logger) : M (Payload * option error) :=
  pcommand ← new (CResource command);
  requestPropsErr ← json_Unmarshal (ResourceProperties event) pcommand;
  match requestPropsErr with
  | Some err => mret (None, Some err)
  | None =>
      command' ← loadResource pcommand;
      message ← deref (Message (request command'));
      Logger_Info logger [verb; Literal message];;
      mret (result (Literal message), None)
  end.

Definition createdPayload (message : string) : Payload :=
  Some {[ "Resource" := VString ("Created message: " ++ message) ]}.

(** The first statement of each method, [json.Unmarshal] into the local
    copy of the receiver, with the copy it leaves. *)
Definition decodeRequest (command : SpartaHelloWorldResource)
    (event : CloudFormationLambdaEvent)
  : M (option error * SpartaHelloWorldResource) :=
  pcommand ← new (CResource command);
  requestPropsErr ← json_Unmarshal (ResourceProperties event) pcommand;
  command' ← loadResource pcommand;
  mret (requestPropsErr, command').

(** The literal of the decoded Message, when the properties decode without
    an error and hold a Message. *)
Definition decodedMessage (command : SpartaHelloWorldResource)
    (event : CloudFormationLambdaEvent) (σ : State) : option string :=
  match run (decodeRequest command event) σ with
  | Returns (None, command') σ' =>
      match Message (request command') with
      | Some l =>
          match heap σ' !! l with
          | Some (CStringExpr x) => Some (Literal x)
          | _ => None
          end
      | None => None
      end
  | _ => None
  end.

(** The error of a failed decoding. *)
Definition decodeError (command : SpartaHelloWorldResource)
    (event : CloudFormationLambdaEvent) (σ : State) : option error :=
  match run (decodeRequest command event) σ with
  | Returns (Some err, _) _ => Some err
  | _ => None
  end.

(** ** Callers *)

Inductive Operation : Type :=
| OpCreate
| OpUpdate
| OpDelete.

Definition method (op : Operation)
  : SpartaHelloWorldResource → Session → CloudFormationLambdaEvent → Logger →
    M (Payload * option error) :=
  match op with
  | OpCreate => Create
  | OpUpdate => Update
  | OpDelete => Delete
  end.

(** A call [handler.Create(...)] through the pointer the factory returned:
    the receiver of a value method is a copy of what the pointer holds. *)
Definition callMethod (op : Operation) (handler : loc) (awsSession : Session)
    (event : CloudFormationLambdaEvent) (logger : Logger)
  : M (Payload * option error) :=
  command ← loadResource handler;
  method op command awsSession event logger.

(** [n] invocations in a row, with their results. *)
Fixpoint times {A} (n : nat) (m : M A) : M (list A) :=
  match n with
  | O => mret []
  | S n' => a ← m; rest ← times n' m; mret (a :: rest)
  end.





(** ** The decoder on values *)

(** The same decoder read on the values behind the pointers: what
    [json.Unmarshal] leaves in the three fields, whatever the addresses.  It
    is related to [json_Unmarshal] by [json_Unmarshal_sim] below. *)
Record Props : Type := mkProps {
  propServiceToken : option StringExpr;
  propResourceTypeName : string;
  propMessage : option StringExpr
}.

Definition getProp (f : pointerField) (d : Props) : option StringExpr :=
  match f with
  | ServiceTokenField => propServiceToken d
  | MessageField => propMessage d
  end.

Definition setProp (f : pointerField) (o : option StringExpr) (d : Props) : Props :=
  match f with
  | ServiceTokenField =>
      {| propServiceToken := o; propResourceTypeName := propResourceTypeName d;
         propMessage := propMessage d |}
  | MessageField =>
      {| propServiceToken := propServiceToken d;
         propResourceTypeName := propResourceTypeName d; propMessage := o |}
  end.

Definition stringExprFieldP (f : pointerField) (v : JSON) (d : Props)
    (saved : option error) : Props * step :=
  match v with
  | JNull => (setProp f None d, Next saved)
  | _ =>
      let x := default zeroStringExpr (getProp f d) in
      match StringExpr_UnmarshalJSON v x with
      | inl e => (setProp f (Some x) d, unmarshalerFailed (pointerFieldName f) saved e)
      | inr x' => (setProp f (Some x') d, Next saved)
      end
  end.

Definition stringFieldP (v : JSON) (d : Props) (saved : option error) : Props * step :=
  match v with
  | JString s =>
      ({| propServiceToken := propServiceToken d; propResourceTypeName := s;
          propMessage := propMessage d |}, Next saved)
  | JNull => (d, Next saved)
  | _ => (d, Next (saveError saved (mismatchError (valueKind v))))
  end.

Definition memberP (kv : string * JSON) (d : Props) (saved : option error)
  : Props * step :=
  match fieldByName kv.1 with
  | None => (d, Next saved)
  | Some fServiceToken => stringExprFieldP ServiceTokenField kv.2 d saved
  | Some fResourceTypeName => stringFieldP kv.2 d saved
  | Some fMessage => stringExprFieldP MessageField kv.2 d saved
  end.

Fixpoint objectP (members : list (string * JSON)) (d : Props)
    (saved : option error) : Props * option error :=
  match members with
  | [] => (d, saved)
  | kv :: rest =>
      match memberP kv d saved with
      | (d', Next saved') => objectP rest d' saved'
      | (d', Abort e) => (d', Some e)
      end
  end.

Definition UnmarshalP (data : RawMessage) (d : Props) : Props * option error :=
  match data with
  | Malformed msg off => (d, Some (SyntaxError msg off))
  | Document JNull => (d, None)
  | Document (JObject members) => objectP members d None
  | Document v =>
      (d, Some (UnmarshalTypeError (valueKind v)
                  "main.SpartaHelloWorldResource" "" ""))
  end.

End Program.

(** ** Predicates on stores *)

(** The cells the decoder of a resource at [pc] holding [c] may write: the
    resource itself and the two string expressions it points to. *)
Definition owned (pc : loc) (c : SpartaHelloWorldResource) (l : loc) : Prop :=
  l = pc ∨ ServiceToken (customResource c) = Some l ∨ Message (request c) = Some l.

Record frame (σ σ' : State) (pc : loc) (c c' : SpartaHelloWorldResource) : Prop := {
  frame_resource : heap σ' !! pc = Some (CResource c');
  frame_length : (length (heap σ) ≤ length (heap σ'))%nat;
  frame_cells : ∀ l, (l < length (heap σ))%nat → ¬ owned pc c l →
                     heap σ' !! l = heap σ !! l;
  frame_owned : ∀ l, owned pc c' l → owned pc c l ∨ (length (heap σ) ≤ l)%nat;
  frame_others : ∀ l c0, l ≠ pc → heap σ !! l = Some (CResource c0) →
                         heap σ' !! l = Some (CResource c0);
  frame_output : output σ' = output σ;
  frame_providers : customResourceProviders σ' = customResourceProviders σ
}.

(** A pointer and the value behind it. *)
Definition pointsTo (h : list cell) (p : option loc) (o : option StringExpr) : Prop :=
  match p, o with
  | None, None => True
  | Some l, Some x => h !! l = Some (CStringExpr x)
  | _, _ => False
  end.

(** The resource at [pc] holds the values [d], behind two distinct
    pointers. *)
Record represents (σ : State) (pc : loc) (c : SpartaHelloWorldResource)
    (d : Props) : Prop := {
  rep_resource : heap σ !! pc = Some (CResource c);
  rep_pointers : ∀ f, pointsTo (heap σ) (getPointer f c) (getProp f d);
  rep_name : ResourceTypeName (customResource c) = propResourceTypeName d;
  rep_separate : ∀ l, ServiceToken (customResource c) = Some l →
                      Message (request c) ≠ Some l
}.

Definition allocated (σ : State) (v : cell) : State :=
  {| heap := heap σ ++ [v]; output := output σ;
     customResourceProviders := customResourceProviders σ |}.

(** What a caller can observe of a run that started in [σ] with the
    receiver [command]: the cells that existed are as they were, but for
    the string expressions the receiver points to; the provider table is as
    it was; the local copy is a new cell. *)
Record untouched (σ σ' : State) (command : SpartaHelloWorldResource) : Prop := {
  untouched_cells : ∀ l, (l < length (heap σ))%nat →
                         (∀ f, getPointer f command ≠ Some l) →
                         heap σ' !! l = heap σ !! l;
  untouched_resources : ∀ l c0, heap σ !! l = Some (CResource c0) →
                                heap σ' !! l = Some (CResource c0);
  untouched_providers : customResourceProviders σ' = customResourceProviders σ;
  untouched_copy : ∃ command', heap σ' !! length (heap σ) = Some (CResource command')
}.

(** Receivers that carry no request yet, as the factory builds them. *)
Definition unpopulated (command : SpartaHelloWorldResource) : Prop :=
  ServiceToken (customResource command) = None ∧ Message (request command) = None.

Definition propsOf (command : SpartaHelloWorldResource) : Props :=
  {| propServiceToken := None;
     propResourceTypeName := ResourceTypeName (customResource command);
     propMessage := None |}.

(** The word each method logs and the payload it builds. *)
Definition verbOf (op : Operation) : string :=
  match op with
  | OpCreate => "create: "
  | OpUpdate => "update: "
  | OpDelete => "delete: "
  end.

Definition resultOf (op : Operation) : string → Payload :=
  match op with
  | OpCreate => createdPayload
  | OpUpdate => λ _, None
  | OpDelete => λ _, None
  end.

(** The tail of a method once the properties are decoded without error. *)
Definition finish (verb : string) (result : string → Payload)
    (command' : SpartaHelloWorldResource) (logger : Logger)
  : M (Payload * option error) :=
  message ← deref (Message (request command'));
  Logger_Info logger [verb; Literal message];;
  mret (result (Literal message), None).


(** ** Reading the properties *)

#[global] Instance field_eq_dec : EqDecision field.
Proof. solve_decision. Defined.

(** The value of the last member whose key names the field Message, if
    there is one: the decoder visits the members in order, so it is the one
    that stays. *)
Fixpoint lastMessageFrom (acc : option JSON) (members : list (string * JSON))
  : option JSON :=
  match members with
  | [] => acc
  | kv :: rest =>
      lastMessageFrom (match fieldByName kv.1 with
                       | Some fMessage => Some kv.2
                       | _ => acc
                       end) rest
  end.

Definition lastMessage (members : list (string * JSON)) : option JSON :=
  lastMessageFrom None members.

Definition isString (v : JSON) : bool :=
  match v with
  | JString _ => true
  | _ => false
  end.

(** Every member has a string for a value. *)
Definition allStrings (members : list (string * JSON)) : bool :=
  forallb (λ kv, isString kv.2) members.




(** The other case of an ASCII letter. *)
Definition swapCase (a : ascii) : ascii :=
  if (Ascii.leb "a" a && Ascii.leb a "z")%bool
  then ascii_of_nat (nat_of_ascii a - 32)
  else if (Ascii.leb "A" a && Ascii.leb a "Z")%bool
       then ascii_of_nat (nat_of_ascii a + 32)
       else a.

(** A string with the case of its letters changed where the mask says so. *)
Fixpoint recase (mask : list bool) (s : string) {struct s} : string :=
  match s, mask with
  | String a rest, b :: mask' =>
      String (if b then swapCase a else a) (recase mask' rest)
  | _, _ => s
  end.

(** What a caller sees of a run: the result or the fault, not the store. *)
Inductive Verdict (A : Type) : Type :=
| Returned (a : A)
| Panicked (v : PanicValue)
| WasStuck.

Arguments Returned {A} a.
Arguments Panicked {A} v.
Arguments WasStuck {A}.

Definition verdict {A} (o : Outcome A) : Verdict A :=
  match o with
  | Returns a _ => Returned a
  | Panics v => Panicked v
  | Stuck => WasStuck
  end.

(** What the last Message member leaves in the decoded values. *)
Definition agrees (acc : option JSON) (d : Props) : Prop :=
  match acc with
  | None => propMessage d = None
  | Some JNull => propMessage d = None
  | Some (JString m) => propMessage d = Some {| Func := None; Literal := m |}
  | Some _ => is_Some (propMessage d)
  end.

(** The pointers of the receiver lead to string expressions of the store,
    two different ones. *)
Definition wellFormed (σ : State) (command : SpartaHelloWorldResource) : Prop :=
  (∀ f l, getPointer f command = Some l → ∃ x, heap σ !! l = Some (CStringExpr x)) ∧
  (∀ l, ServiceToken (customResource command) = Some l →
        Message (request command) ≠ Some l).

(** The values behind the pointers of a receiver. *)
Definition valueAt (σ : State) (p : option loc) : option StringExpr :=
  match p with
  | Some l =>
      match heap σ !! l with
      | Some (CStringExpr x) => Some x
      | _ => None
      end
  | None => None
  end.

Definition propsIn (σ : State) (command : SpartaHelloWorldResource) : Props :=
  {| propServiceToken := valueAt σ (ServiceToken (customResource command));
     propResourceTypeName := ResourceTypeName (customResource command);
     propMessage := valueAt σ (Message (request command)) |}.

(** An event of the type registered by [init], with an object for its
    properties. *)
Definition eventWith (requestType : string) (members : list (string * JSON))
  : CloudFormationLambdaEvent :=
  {| RequestType := requestType;
     ResourceType := spartaHelloWorldResourceType;
     ResourceProperties := Document (JObject members) |}.

(** The two type assertions of [helloWorld], main.go:22 and main.go:26: the
    logger, or the request entry, when the context holds a value of that
    type under the key. *)
Definition loggerIn (ctx : Context) : option Logger :=
  match ctx ContextKeyLogger with
  | anyLogger l => Some l
  | _ => None
  end.

Definition entryIn (ctx : Context) : option Entry :=
  match ctx ContextKeyRequestLogger with
  | anyEntry e => Some e
  | _ => None
  end.

(** ** Examples of inputs *)

(** Libraries for the examples.  A go-cloudformation that knows no
    intrinsic function, so that every document that is not a string is
    refused, and whose own types are the [AWS::] names.  An [encoding/json]
    that stops at the error of an [UnmarshalJSON] and reports the type error
    it had saved, if any, and that error as it is otherwise, and that writes
    the name of a promoted field without a path. *)
Definition literalsOnly : Libraries :=
  {| unmarshalStringFunc := λ _ _, inl (errorString "unknown function");
     ownResourceType := λ typeName,
       (negb (isPrefix "Custom::" typeName) && isPrefix "AWS::" typeName)%bool;
     ownResourceType_Custom := λ typeName H,
       f_equal (λ b : bool, (negb b && isPrefix "AWS::" typeName)%bool) H;
     unmarshalerFailed := λ _ saved e, Abort (default e saved);
     embeddedPath := λ _, "" |}.

Definition anEvent (requestType : string) (properties : RawMessage)
  : CloudFormationLambdaEvent :=
  {| RequestType := requestType;
     ResourceType := spartaHelloWorldResourceType;
     ResourceProperties := properties |}.

(** [{}]: properties without a Message. *)
Definition noProperties : RawMessage := Document (JObject []).

(** Properties as CloudFormation sends them for a resource declared without
    a Message: the service token alone. *)
Definition serviceTokenOnly : RawMessage :=
  Document (JObject [("ServiceToken",
                      JString "arn:aws:lambda:us-west-2:123412341234:function:CustomResource")]).

(** [{"Message": "hi"}]. *)
Definition messageHi : RawMessage :=
  Document (JObject [("Message", JString "hi")]).


Definition aSession : Session := awsSessionHandle 0.

Definition aLogger : Logger := 0%nat.

(** A document that is not an object. *)
Definition anArray : RawMessage := Document (JArray [JString "hi"]).

(** Members with two spellings of the Message key and a key that names no
    field. *)
Definition twoMessages : list (string * JSON) :=
  [("message", JString "first"); ("Region", JString "us-west-2");
   ("MESSAGE", JString "second")].

(** A Message that is withdrawn by a later null. *)
Definition withdrawnMessage : list (string * JSON) :=
  [("Message", JString "hi"); ("Message", JNull)].

(** The receiver main.go:149 builds, once its Message is set, in a store
    that holds the string expression. *)
Definition activated : SpartaHelloWorldResource := setMessage (Some 0%nat) emptyResource.

Definition activatedStore : State :=
  {| heap := [CStringExpr {| Func := None; Literal := "Custom resource activated!" |}];
     output := []; customResourceProviders := [] |}.






(** A process in which the factory has built the handler at address 0. *)
Definition handlerBuilt : State := allocated initialState (CResource emptyResource).

(** ** Running programs *)

Lemma run_bind {A B} (m : M A) (f : A → M B) (σ : State) :
  run (m ≫= f) σ =
  match run m σ with
  | Returns a σ' => run (f a) σ'
  | Panics v => Panics v
  | Stuck => Stuck
  end.
Proof. reflexivity. Qed.

Lemma run_loadResource (l : loc) (c : SpartaHelloWorldResource) (σ : State) :
  heap σ !! l = Some (CResource c) → run (loadResource l) σ = Returns c σ.
Proof. unfold run, loadResource. by intros ->. Qed.

Lemma run_loadStringExpr (l : loc) (x : StringExpr) (σ : State) :
  heap σ !! l = Some (CStringExpr x) → run (loadStringExpr l) σ = Returns x σ.
Proof. unfold run, loadStringExpr. by intros ->. Qed.


Lemma loadStringExpr_returns (l : loc) (x : StringExpr) (σ σ' : State) :
  run (loadStringExpr l) σ = Returns x σ' → σ' = σ ∧ heap σ !! l = Some (CStringExpr x).
Proof.
  unfold run, loadStringExpr. destruct (heap σ !! l) as [[c0|x0|t0]|] eqn:E; try done.
  by intros [= -> ->].
Qed.

(** ** What a run of the decoder may write *)

Lemma frame_refl σ pc c : heap σ !! pc = Some (CResource c) → frame σ σ pc c c.
Proof. intros Hpc. split; auto. Qed.

Lemma frame_trans σ σ1 σ2 pc c c1 c2 :
  frame σ σ1 pc c c1 → frame σ1 σ2 pc c1 c2 → frame σ σ2 pc c c2.
Proof.
  intros [R1 L1 C1 O1 T1 E1 P1] [R2 L2 C2 O2 T2 E2 P2]. split.
  - done.
  - lia.
  - intros l Hl Hn. rewrite C2.
    + by apply C1.
    + lia.
    + intros Ho. destruct (O1 l Ho); [done | lia].
  - intros l Ho. destruct (O2 l Ho) as [Ho1|]; [|right; lia].
    destruct (O1 l Ho1); [by left | by right].
  - intros l c0 Hne Hl. by apply T2, T1.
  - congruence.
  - congruence.
Qed.

(** Storing a new value for the resource at [pc]. *)
Lemma frame_store_resource σ pc c c' :
  heap σ !! pc = Some (CResource c) →
  (∀ l, owned pc c' l → owned pc c l ∨ (length (heap σ) ≤ l)%nat) →
  frame σ {| heap := <[pc := CResource c']> (heap σ); output := output σ;
             customResourceProviders := customResourceProviders σ |} pc c c'.
Proof.
  intros Hpc Ho. split; simpl; auto.
  - apply list_lookup_insert_eq. by eapply lookup_lt_Some.
  - by rewrite length_insert.
  - intros l _ Hn. apply list_lookup_insert_ne. intros ->. apply Hn. by left.
  - intros l c0 Hne Hl. by rewrite list_lookup_insert_ne.
Qed.

(** Storing into a string expression the resource points to. *)
Lemma frame_store_pointee σ pc c px x x' :
  heap σ !! pc = Some (CResource c) → heap σ !! px = Some (CStringExpr x) →
  owned pc c px →
  frame σ {| heap := <[px := CStringExpr x']> (heap σ); output := output σ;
             customResourceProviders := customResourceProviders σ |} pc c c.
Proof.
  intros Hpc Hpx Ho. split; simpl; auto.
  - rewrite list_lookup_insert_ne; [done | congruence].
  - by rewrite length_insert.
  - intros l _ Hn. apply list_lookup_insert_ne. by intros ->.
  - intros l c0 Hne Hl. rewrite list_lookup_insert_ne; [done | congruence].
Qed.

Section Decoder.

Context {G : Libraries}.

Lemma getPointer_owned f pc c l : getPointer f c = Some l → owned pc c l.
Proof. destruct f; unfold owned; simpl; auto. Qed.

Lemma setPointer_owned f p pc c l :
  owned pc (setPointer f p c) l → owned pc c l ∨ p = Some l.
Proof. destruct f; unfold owned; simpl; intuition. Qed.

Lemma getPointer_setPointer f p c : getPointer f (setPointer f p c) = p.
Proof. by destruct f. Qed.

Lemma indirect_frame f pc σ σ' px c :
  heap σ !! pc = Some (CResource c) →
  run (indirect f pc) σ = Returns px σ' →
  ∃ c', frame σ σ' pc c c' ∧ getPointer f c' = Some px.
Proof.
  intros Hpc. unfold indirect. rewrite run_bind, (run_loadResource _ _ _ Hpc).
  destruct (getPointer f c) as [l|] eqn:Hget.
  - intros [= -> ->]. exists c. split; [by apply frame_refl | done].
  - intros [= <- <-]. eexists. split; [|apply getPointer_setPointer].
    pose proof (lookup_lt_Some _ _ _ Hpc) as Hlt.
    split; simpl; auto.
    + rewrite list_lookup_insert_eq; [done|]. rewrite length_app. lia.
    + rewrite length_insert, length_app. lia.
    + intros l Hl Hn. rewrite list_lookup_insert_ne, lookup_app_l; [done..|].
      intros ->. apply Hn. by left.
    + intros l [Ho|[= <-]]%setPointer_owned; [by left | by right].
    + intros l c0 Hne Hl. rewrite list_lookup_insert_ne, lookup_app_l; [done| |done].
      by eapply lookup_lt_Some.
Qed.

Lemma decodeStringExprField_frame f v pc saved σ σ' s c :
  heap σ !! pc = Some (CResource c) →
  run (decodeStringExprField f v pc saved) σ = Returns s σ' →
  ∃ c', frame σ σ' pc c c'.
Proof.
  intros Hpc Hrun.
  assert (Hnull : run (c ← loadResource pc;
                       store pc (CResource (setPointer f None c));;
                       mret (Next saved)) σ = Returns s σ' → ∃ c', frame σ σ' pc c c').
  { rewrite run_bind, (run_loadResource _ _ _ Hpc). intros [= <- <-].
    eexists. apply frame_store_resource; [done|].
    intros l [Ho|?]%setPointer_owned; [by left | done]. }
  assert (Hvalue : run (px ← indirect f pc;
                        x ← loadStringExpr px;
                        match StringExpr_UnmarshalJSON v x with
                        | inl e => mret (unmarshalerFailed (pointerFieldName f) saved e)
                        | inr x' => store px (CStringExpr x');; mret (Next saved)
                        end) σ = Returns s σ' → ∃ c', frame σ σ' pc c c').
  { rewrite run_bind. destruct (run (indirect f pc) σ) as [px σ1| |] eqn:Hind; try done.
    destruct (indirect_frame _ _ _ _ _ _ Hpc Hind) as (c1 & Hf & Hget).
    rewrite run_bind.
    destruct (run (loadStringExpr px) σ1) as [x σ2| |] eqn:Hload; try done.
    apply loadStringExpr_returns in Hload as [-> Hpx].
    destruct (StringExpr_UnmarshalJSON v x) as [e|x'].
    - intros [= <- <-]. by exists c1.
    - intros [= <- <-]. exists c1. eapply frame_trans; [done|].
      eapply frame_store_pointee.
      + apply Hf.
      + done.
      + by eapply getPointer_owned. }
  destruct v; auto.
Qed.

Lemma decodeStringField_frame v pc saved σ σ' s c :
  heap σ !! pc = Some (CResource c) →
  run (decodeStringField v pc saved) σ = Returns s σ' →
  ∃ c', frame σ σ' pc c c'.
Proof.
  intros Hpc. destruct v; simpl;
    try (intros [= <- <-]; exists c; by apply frame_refl).
  rewrite run_bind, (run_loadResource _ _ _ Hpc). intros [= <- <-].
  eexists. apply frame_store_resource; [done|]. unfold owned. simpl. auto.
Qed.

Lemma member_frame pc kv saved σ σ' s c :
  heap σ !! pc = Some (CResource c) →
  run (member pc kv saved) σ = Returns s σ' →
  ∃ c', frame σ σ' pc c c'.
Proof.
  intros Hpc. unfold member. destruct (fieldByName kv.1) as [[]|].
  - by apply decodeStringExprField_frame.
  - by apply decodeStringField_frame.
  - by apply decodeStringExprField_frame.
  - intros [= <- <-]. exists c. by apply frame_refl.
Qed.

Lemma object_frame members : ∀ pc saved σ σ' e c,
  heap σ !! pc = Some (CResource c) →
  run (object members pc saved) σ = Returns e σ' →
  ∃ c', frame σ σ' pc c c'.
Proof.
  induction members as [|kv rest IH]; intros pc saved σ σ' e c Hpc; simpl.
  - intros [= <- <-]. exists c. by apply frame_refl.
  - rewrite run_bind.
    destruct (run (member pc kv saved) σ) as [s σ1| |] eqn:Hm; try done.
    destruct (member_frame _ _ _ _ _ _ _ Hpc Hm) as (c1 & Hf1).
    destruct s as [saved'|err].
    + intros Hrest.
      destruct (IH _ _ _ _ _ _ (frame_resource _ _ _ _ _ Hf1) Hrest) as (c2 & Hf2).
      exists c2. by eapply frame_trans.
    + intros [= <- <-]. by exists c1.
Qed.

Lemma json_Unmarshal_frame data pc σ σ' e c :
  heap σ !! pc = Some (CResource c) →
  run (json_Unmarshal data pc) σ = Returns e σ' →
  ∃ c', frame σ σ' pc c c'.
Proof.
  intros Hpc. destruct data as [msg off|v]; simpl.
  - intros [= <- <-]. exists c. by apply frame_refl.
  - destruct v; try (intros [= <- <-]; exists c; by apply frame_refl).
    by apply object_frame.
Qed.

Lemma pointsTo_lt h l o : pointsTo h (Some l) o → (l < length h)%nat.
Proof. destruct o; simpl; [|done]. apply lookup_lt_Some. Qed.

Lemma pointsTo_insert_ne h p o i v :
  pointsTo h p o → p ≠ Some i → pointsTo (<[i := v]> h) p o.
Proof.
  destruct p as [l|], o as [x|]; simpl; try done.
  intros Hl Hne. rewrite list_lookup_insert_ne; [done | congruence].
Qed.

Lemma pointsTo_app h p o k : pointsTo h p o → pointsTo (h ++ k) p o.
Proof.
  destruct p as [l|], o as [x|]; simpl; try done.
  intros Hl. rewrite lookup_app_l; [done | by eapply lookup_lt_Some].
Qed.

Lemma pointsTo_not_resource h p o pc c :
  pointsTo h p o → h !! pc = Some (CResource c) → p ≠ Some pc.
Proof. destruct p as [l|], o as [x|]; simpl; try done. congruence. Qed.

Lemma represents_store_resource σ pc c d c' d' :
  represents σ pc c d →
  (∀ f, getPointer f c' = getPointer f c ∧ getProp f d' = getProp f d) →
  ResourceTypeName (customResource c') = propResourceTypeName d' →
  represents {| heap := <[pc := CResource c']> (heap σ); output := output σ;
                customResourceProviders := customResourceProviders σ |} pc c' d'.
Proof.
  intros [R P N S] Hsame Hname. split; simpl.
  - apply list_lookup_insert_eq. by eapply lookup_lt_Some.
  - intros f. destruct (Hsame f) as [-> ->].
    apply pointsTo_insert_ne; [done | by eapply pointsTo_not_resource].
  - done.
  - intros l. destruct (Hsame ServiceTokenField) as [Hs _].
    destruct (Hsame MessageField) as [Hm _]. simpl in Hs, Hm.
    rewrite Hs, Hm. apply S.
Qed.

Lemma represents_clear f σ pc c d :
  represents σ pc c d →
  represents {| heap := <[pc := CResource (setPointer f None c)]> (heap σ);
                output := output σ;
                customResourceProviders := customResourceProviders σ |}
             pc (setPointer f None c) (setProp f None d).
Proof.
  intros [R P N S]. split; simpl.
  - apply list_lookup_insert_eq. by eapply lookup_lt_Some.
  - intros g. pose proof (P g) as Pg.
    destruct f, g; simpl in *; try done;
      (apply pointsTo_insert_ne; [done | by eapply pointsTo_not_resource]).
  - by destruct f.
  - destruct f; simpl; [done | by intros].
Qed.

Lemma indirect_sim f pc σ c d :
  represents σ pc c d →
  ∃ σ' c' px,
    run (indirect f pc) σ = Returns px σ' ∧
    getPointer f c' = Some px ∧
    represents σ' pc c' (setProp f (Some (default zeroStringExpr (getProp f d))) d).
Proof.
  intros Hrep. pose proof Hrep as [R P N S].
  unfold indirect. rewrite run_bind, (run_loadResource _ _ _ R).
  pose proof (P f) as Pf.
  destruct (getPointer f c) as [l|] eqn:Hget.
  - exists σ, c, l. split; [done|]. split; [done|].
    destruct (getProp f d) as [x|] eqn:Hd; [|done]. simpl.
    replace (setProp f (Some x) d) with d; [done|].
    destruct d, f; simpl in *; by subst.
  - destruct (getProp f d) as [x|] eqn:Hd; [done|]. simpl.
    eexists _, _, _. split; [reflexivity|]. split; [apply getPointer_setPointer|].
    pose proof (lookup_lt_Some _ _ _ R) as Hlt.
    split; simpl.
    + rewrite list_lookup_insert_eq; [done|]. rewrite length_app. lia.
    + intros g. pose proof (P g) as Pg.
      assert (Hfresh : (heap σ ++ [CStringExpr zeroStringExpr])%list !! length (heap σ)
                       = Some (CStringExpr zeroStringExpr))
        by (by apply list_lookup_middle).
      destruct f, g; simpl in *; rewrite ?Hget in *;
        try (rewrite list_lookup_insert_ne by lia; done);
        (apply pointsTo_insert_ne;
         [by apply pointsTo_app | by eapply pointsTo_not_resource]).
    + by destruct f.
    + pose proof (P ServiceTokenField) as Ps. pose proof (P MessageField) as Pm.
      destruct f; simpl in *.
      * intros l [= <-] Hm. rewrite Hm in Pm. apply pointsTo_lt in Pm. lia.
      * intros l Hs [= <-]. rewrite Hs in Ps. apply pointsTo_lt in Ps. lia.
Qed.

Lemma getProp_setProp f o d : getProp f (setProp f o d) = o.
Proof. by destruct f. Qed.

Lemma setProp_setProp f o o' d : setProp f o' (setProp f o d) = setProp f o' d.
Proof. by destruct f. Qed.

Lemma represents_store_pointee f σ pc c d px x' :
  represents σ pc c d → getPointer f c = Some px →
  represents {| heap := <[px := CStringExpr x']> (heap σ); output := output σ;
                customResourceProviders := customResourceProviders σ |}
             pc c (setProp f (Some x') d).
Proof.
  intros [R P N S] Hget.
  pose proof (P f) as Pf. rewrite Hget in Pf.
  pose proof (pointsTo_lt _ _ _ Pf) as Hlt.
  assert (px ≠ pc) as Hne.
  { intros ->. by eapply (pointsTo_not_resource _ _ _ _ _ Pf). }
  split; simpl.
  - by rewrite list_lookup_insert_ne.
  - intros g. pose proof (P g) as Pg.
    destruct f, g; simpl in *; rewrite ?Hget;
      try (by apply list_lookup_insert_eq);
      apply pointsTo_insert_ne; try done.
    + intros Hm. by apply (S px).
    + intros Hs. by apply (S px).
  - by destruct f.
  - done.
Qed.

Lemma decodeStringExprField_sim f v pc saved σ c d :
  represents σ pc c d →
  ∃ σ' c',
    run (decodeStringExprField f v pc saved) σ
      = Returns (stringExprFieldP f v d saved).2 σ' ∧
    represents σ' pc c' (stringExprFieldP f v d saved).1.
Proof.
  intros Hrep.
  assert (Hvalue : ∃ σ' c',
    run (px ← indirect f pc;
         x ← loadStringExpr px;
         match StringExpr_UnmarshalJSON v x with
         | inl e => mret (unmarshalerFailed (pointerFieldName f) saved e)
         | inr x' => store px (CStringExpr x');; mret (Next saved)
         end) σ
      = Returns (let x := default zeroStringExpr (getProp f d) in
                 match StringExpr_UnmarshalJSON v x with
                 | inl e => (setProp f (Some x) d,
                             unmarshalerFailed (pointerFieldName f) saved e)
                 | inr x' => (setProp f (Some x') d, Next saved)
                 end).2 σ' ∧
    represents σ' pc c'
      (let x := default zeroStringExpr (getProp f d) in
       match StringExpr_UnmarshalJSON v x with
       | inl e => (setProp f (Some x) d,
                   unmarshalerFailed (pointerFieldName f) saved e)
       | inr x' => (setProp f (Some x') d, Next saved)
       end).1).
  { destruct (indirect_sim f pc σ c d Hrep) as (σ1 & c1 & px & Hind & Hget & Hrep1).
    rewrite run_bind, Hind, run_bind.
    pose proof (rep_pointers _ _ _ _ Hrep1 f) as Ppx.
    rewrite Hget, getProp_setProp in Ppx. simpl in Ppx.
    rewrite (run_loadStringExpr _ _ _ Ppx). simpl.
    destruct (StringExpr_UnmarshalJSON v (default zeroStringExpr (getProp f d)))
      as [e|x']; simpl.
    - by exists σ1, c1.
    - eexists _, c1. split; [reflexivity|].
      rewrite <- (setProp_setProp f (Some (default zeroStringExpr (getProp f d)))).
      by apply represents_store_pointee. }
  destruct v; try exact Hvalue.
  simpl. pose proof (rep_resource _ _ _ _ Hrep) as R.
  rewrite run_bind, (run_loadResource _ _ _ R).
  eexists _, _. split; [reflexivity|]. by apply represents_clear.
Qed.

Lemma decodeStringField_sim v pc saved σ c d :
  represents σ pc c d →
  ∃ σ' c',
    run (decodeStringField v pc saved) σ = Returns (stringFieldP v d saved).2 σ' ∧
    represents σ' pc c' (stringFieldP v d saved).1.
Proof.
  intros Hrep. destruct v; simpl; try (by exists σ, c).
  pose proof (rep_resource _ _ _ _ Hrep) as R.
  rewrite run_bind, (run_loadResource _ _ _ R).
  eexists _, _. split; [reflexivity|].
  eapply represents_store_resource; [done| |done].
  by intros [].
Qed.

Lemma member_sim pc kv saved σ c d :
  represents σ pc c d →
  ∃ σ' c',
    run (member pc kv saved) σ = Returns (memberP kv d saved).2 σ' ∧
    represents σ' pc c' (memberP kv d saved).1.
Proof.
  intros Hrep. unfold member, memberP. destruct (fieldByName kv.1) as [[]|].
  - by eapply decodeStringExprField_sim.
  - by eapply decodeStringField_sim.
  - by eapply decodeStringExprField_sim.
  - by exists σ, c.
Qed.

Lemma object_sim members : ∀ pc saved σ c d,
  represents σ pc c d →
  ∃ σ' c',
    run (object members pc saved) σ = Returns (objectP members d saved).2 σ' ∧
    represents σ' pc c' (objectP members d saved).1.
Proof.
  induction members as [|kv rest IH]; intros pc saved σ c d Hrep; simpl.
  - by exists σ, c.
  - destruct (member_sim pc kv saved σ c d Hrep) as (σ1 & c1 & Hm & Hrep1).
    rewrite run_bind, Hm.
    destruct (memberP kv d saved) as [d1 [saved'|e]]; simpl in *.
    + by eapply IH.
    + by exists σ1, c1.
Qed.

(** [json.Unmarshal] always returns on a well-formed store, and what it
    returns and leaves behind the pointers is what the decoder on values
    computes. *)
Lemma json_Unmarshal_sim data pc σ c d :
  represents σ pc c d →
  ∃ σ' c',
    run (json_Unmarshal data pc) σ = Returns (UnmarshalP data d).2 σ' ∧
    represents σ' pc c' (UnmarshalP data d).1.
Proof.
  intros Hrep. destruct data as [msg off|v]; simpl; [by exists σ, c|].
  destruct v; try (by exists σ, c). by eapply object_sim.
Qed.

End Decoder.

(** ** The lifecycle methods *)

Section Handlers.

Context {G : Libraries}.

Lemma method_lifecycle op command awsSession event logger :
  method op command awsSession event logger
  = lifecycle (verbOf op) (resultOf op) command event logger.
Proof. by destruct op. Qed.

Lemma allocated_lookup σ v : heap (allocated σ v) !! length (heap σ) = Some v.
Proof. simpl. by apply list_lookup_middle. Qed.

Lemma run_new {A} (v : cell) (f : loc → M A) (σ : State) :
  run (new v ≫= f) σ = run (f (length (heap σ))) (allocated σ v).
Proof. reflexivity. Qed.

Lemma lifecycle_run verb result command event logger σ :
  run (lifecycle verb result command event logger) σ =
  match run (decodeRequest command event) σ with
  | Returns (Some err, _) σ' => Returns (None, Some err) σ'
  | Returns (None, command') σ' => run (finish verb result command' logger) σ'
  | Panics v => Panics v
  | Stuck => Stuck
  end.
Proof.
  unfold lifecycle, decodeRequest. rewrite !run_new, !run_bind.
  destruct (run (json_Unmarshal (ResourceProperties event) (length (heap σ)))
              (allocated σ (CResource command))) as [e σ1| |] eqn:Hdec; try done.
  destruct (json_Unmarshal_frame _ _ _ _ _ _ (allocated_lookup σ _) Hdec)
    as (c1 & Hf).
  rewrite run_bind, (run_loadResource _ _ _ (frame_resource _ _ _ _ _ Hf)).
  destruct e as [err|]; [done|].
  by rewrite run_bind, (run_loadResource _ _ _ (frame_resource _ _ _ _ _ Hf)).
Qed.

Lemma decodeRequest_untouched command event σ r σ' :
  run (decodeRequest command event) σ = Returns r σ' →
  untouched σ σ' command ∧ output σ' = output σ.
Proof.
  unfold decodeRequest. rewrite run_new, run_bind.
  destruct (run (json_Unmarshal (ResourceProperties event) (length (heap σ)))
              (allocated σ (CResource command))) as [e σ1| |] eqn:Hdec; try done.
  destruct (json_Unmarshal_frame _ _ _ _ _ _ (allocated_lookup σ _) Hdec)
    as (c1 & Hf).
  rewrite run_bind, (run_loadResource _ _ _ (frame_resource _ _ _ _ _ Hf)).
  intros [= <- <-]. destruct Hf as [R L C O T E P]. simpl in *.
  rewrite length_app in *. simpl in *. split; [split|done].
  - intros l Hl Hptr. rewrite C.
    + by rewrite lookup_app_l.
    + lia.
    + intros [->|[Hs|Hm]]; [lia | by apply (Hptr ServiceTokenField)
                                 | by apply (Hptr MessageField)].
  - intros l c0 Hl. pose proof (lookup_lt_Some _ _ _ Hl). apply T; [lia|].
    by rewrite lookup_app_l.
  - done.
  - by exists c1.
Qed.

Lemma finish_returns verb result command' logger σ r σ' :
  run (finish verb result command' logger) σ = Returns r σ' →
  ∃ x, r = (result (Literal x), None) ∧
       heap σ' = heap σ ∧
       output σ' = (output σ ++ [LoggerLine logger InfoLevel (Sprint [verb; Literal x])])%list ∧
       customResourceProviders σ' = customResourceProviders σ.
Proof.
  unfold finish. rewrite run_bind.
  destruct (Message (request command')) as [l|]; simpl; [|done].
  destruct (run (loadStringExpr l) σ) as [x σ1| |] eqn:Hload; try done.
  apply loadStringExpr_returns in Hload as [-> _].
  intros [= <- <-]. by exists x.
Qed.

Lemma lifecycle_untouched verb result command event logger σ r σ' :
  run (lifecycle verb result command event logger) σ = Returns r σ' →
  untouched σ σ' command.
Proof.
  rewrite lifecycle_run.
  destruct (run (decodeRequest command event) σ) as [[e c1] σ1| |] eqn:Hdec;
    try done.
  destruct (decodeRequest_untouched _ _ _ _ _ Hdec) as [[C T P L] O].
  destruct e as [err|].
  - by intros [= <- <-].
  - intros (x & -> & Hh & Ho & Hp)%finish_returns. split.
    + intros l Hl Hptr. rewrite Hh. by apply C.
    + intros l c0 Hl. rewrite Hh. by apply T.
    + congruence.
    + by rewrite Hh.
Qed.

(** A run that decodes a Message returns the result built from it and
    logs one line. *)
Lemma lifecycle_decoded verb result command event logger σ m :
  decodedMessage command event σ = Some m →
  ∃ σ', run (lifecycle verb result command event logger) σ
          = Returns (result m, None) σ' ∧
        untouched σ σ' command ∧
        output σ' = (output σ ++ [LoggerLine logger InfoLevel (Sprint [verb; m])])%list.
Proof.
  unfold decodedMessage. rewrite lifecycle_run.
  destruct (run (decodeRequest command event) σ) as [[e c1] σ1| |] eqn:Hdec;
    try done.
  destruct e as [err|]; [done|].
  destruct (Message (request c1)) as [l|] eqn:Hm; [|done].
  destruct (heap σ1 !! l) as [[c0|x|t0]|] eqn:Hl; try done.
  intros [= <-].
  destruct (decodeRequest_untouched _ _ _ _ _ Hdec) as [[C T P L] O].
  unfold finish. rewrite Hm. simpl.
  rewrite run_bind, (run_loadStringExpr _ _ _ Hl).
  eexists. split; [reflexivity|]. simpl. split; [by split|by rewrite O].
Qed.


Lemma decodeRequest_sim command event σ :
  unpopulated command →
  ∃ σ' command',
    run (decodeRequest command event) σ
      = Returns ((UnmarshalP (ResourceProperties event) (propsOf command)).2, command') σ' ∧
    represents σ' (length (heap σ)) command'
               (UnmarshalP (ResourceProperties event) (propsOf command)).1.
Proof.
  intros [Hs Hm]. unfold decodeRequest. rewrite run_new, run_bind.
  assert (Hrep : represents (allocated σ (CResource command)) (length (heap σ))
                            command (propsOf command)).
  { split.
    - apply allocated_lookup.
    - intros []; simpl; by rewrite ?Hs, ?Hm.
    - done.
    - intros l. by rewrite Hs. }
  destruct (json_Unmarshal_sim (ResourceProperties event) _ _ _ _ Hrep)
    as (σ1 & c1 & Hrun & Hrep1).
  rewrite Hrun, run_bind, (run_loadResource _ _ _ (rep_resource _ _ _ _ Hrep1)).
  by exists σ1, c1.
Qed.

(** For such a receiver the decoded Message does not depend on the store. *)
Lemma decodedMessage_unpopulated command event σ :
  unpopulated command →
  decodedMessage command event σ =
  match UnmarshalP (ResourceProperties event) (propsOf command) with
  | (d, None) => Literal <$> propMessage d
  | (_, Some _) => None
  end.
Proof.
  intros Hun. unfold decodedMessage.
  destruct (decodeRequest_sim command event σ Hun) as (σ1 & c1 & -> & Hrep).
  destruct (UnmarshalP (ResourceProperties event) (propsOf command)) as [d [e|]];
    simpl in *; [done|].
  pose proof (rep_pointers _ _ _ _ Hrep MessageField) as Hp. simpl in Hp.
  destruct (Message (request c1)) as [l|], (propMessage d) as [x|]; simpl in *;
    try done.
  by rewrite Hp.
Qed.

(** The outcomes of a method on such a receiver: an error, the fault of a
    nil Message, or the result; never [Stuck]. *)
Lemma lifecycle_unpopulated verb result command event logger σ :
  unpopulated command →
  match UnmarshalP (ResourceProperties event) (propsOf command) with
  | (_, Some err) =>
      ∃ σ', run (lifecycle verb result command event logger) σ
              = Returns (None, Some err) σ'
  | (d, None) =>
      match propMessage d with
      | None => run (lifecycle verb result command event logger) σ
                  = Panics NilPointerDereference
      | Some x =>
          ∃ σ', run (lifecycle verb result command event logger) σ
                  = Returns (result (Literal x), None) σ'
      end
  end.
Proof.
  intros Hun. rewrite lifecycle_run.
  destruct (decodeRequest_sim command event σ Hun) as (σ1 & c1 & -> & Hrep).
  destruct (UnmarshalP (ResourceProperties event) (propsOf command)) as [d [e|]];
    simpl in *; [by exists σ1|].
  pose proof (rep_pointers _ _ _ _ Hrep MessageField) as Hp. simpl in Hp.
  unfold finish.
  destruct (Message (request c1)) as [l|], (propMessage d) as [x|]; simpl in *;
    try done.
  rewrite run_bind, (run_loadStringExpr _ _ _ Hp). by eexists.
Qed.

End Handlers.

(** ** Errors of the decoder *)

Section Errors.

Context {G : Libraries}.










End Errors.

(** ** Processes *)

Section Processes.

Context {G : Libraries}.

Lemma helloWorld_run ctx σ :
  ∃ out, run (helloWorld ctx) σ
         = Returns (helloWorldGreeting, None)
             {| heap := heap σ; output := output σ ++ out;
                customResourceProviders := customResourceProviders σ |}.
Proof.
  unfold helloWorld.
  destruct (ctx ContextKeyLogger), (ctx ContextKeyRequestLogger); simpl;
    unfold run, mbind, M_bind; simpl; rewrite <- ?app_assoc; by eexists.
Qed.












(** Repeated invocations on a receiver that carries no request. *)
Lemma times_lifecycle verb result command event logger m :
  unpopulated command →
  (∀ σ, decodedMessage command event σ = Some m) →
  ∀ n σ,
    ∃ σ', run (times n (lifecycle verb result command event logger)) σ
            = Returns (replicate n (result m, None)) σ' ∧
          (∀ l, (l < length (heap σ))%nat → heap σ' !! l = heap σ !! l) ∧
          customResourceProviders σ' = customResourceProviders σ ∧
          output σ' = (output σ
                       ++ replicate n (LoggerLine logger InfoLevel (Sprint [verb; m])))%list.
Proof.
  intros [Hs Hm] Hdec. induction n as [|n IH]; intros σ; simpl.
  - exists σ. by rewrite app_nil_r.
  - destruct (lifecycle_decoded verb result command event logger σ m (Hdec σ))
      as (σ1 & Hrun & [C T P [c1 L]] & Hout).
    destruct (IH σ1) as (σ2 & Hrest & C2 & P2 & Hout2).
    exists σ2. rewrite !run_bind, Hrun, run_bind, Hrest.
    split; [done|]. split; [|split].
    + intros l Hl. rewrite C2.
      * apply C; [done|]. intros []; simpl; congruence.
      * apply lookup_lt_Some in L. lia.
    + congruence.
    + rewrite Hout2, Hout, <- app_assoc. done.
Qed.

End Processes.

(** ** The claims *)

Section Claims.

Context {G : Libraries}.

(** C1 (the code departs from it).  The claim: every handler operation
    returns a payload or an error and never faults, also when Message is
    absent.  On properties without a Message, [{}], [json.Unmarshal] reports
    no error, the Message pointer stays nil, and each of Create, Update and
    Delete panics with a nil pointer dereference when it reads
    [command.Message.Literal]. *)
Theorem handlers_fault_without_Message
    (awsSession : Session) (requestType : string) (logger : Logger) (σ : State) :
  run (Create emptyResource awsSession (anEvent requestType noProperties) logger) σ
  = Panics NilPointerDereference ∧
  run (Update emptyResource awsSession (anEvent requestType noProperties) logger) σ
  = Panics NilPointerDereference ∧
  run (Delete emptyResource awsSession (anEvent requestType noProperties) logger) σ
  = Panics NilPointerDereference.
Proof.
  assert (Hun : unpopulated emptyResource) by done.
  pose proof (λ op, lifecycle_unpopulated (verbOf op) (resultOf op) emptyResource
                      (anEvent requestType noProperties) logger σ Hun) as Hop.
  repeat split.
  - exact (Hop OpCreate).
  - exact (Hop OpUpdate).
  - exact (Hop OpDelete).
Qed.

(** C2 (the code departs from it).  The claim: properties that lack Message
    make Create fail with a reason that mentions Message.  On the properties
    CloudFormation sends for a resource declared without a Message, Create
    panics: it returns no error at all, so no failure whose reason mentions
    Message, and no payload either; nor does the text of the fault mention
    Message. *)
Theorem Create_without_Message_no_failure
    (awsSession : Session) (logger : Logger) (σ : State) :
  run (Create emptyResource awsSession (anEvent "Create" serviceTokenOnly) logger) σ
  = Panics NilPointerDereference ∧
  ¬ (∃ err σ',
       run (Create emptyResource awsSession (anEvent "Create" serviceTokenOnly) logger) σ
       = Returns (None, Some err) σ' ∧
       Contains (Error err) "Message" = true) ∧
  Contains (panicMessage NilPointerDereference) "Message" = false.
Proof.
  assert (Hun : unpopulated emptyResource) by done.
  pose proof (lifecycle_unpopulated (verbOf OpCreate) (resultOf OpCreate)
                emptyResource (anEvent "Create" serviceTokenOnly) logger σ Hun) as Hrun.
  change (run (Create emptyResource awsSession (anEvent "Create" serviceTokenOnly)
                 logger) σ = Panics NilPointerDereference) in Hrun.
  split; [done|]. split; [|done].
  intros (err & σ' & Hret & _). congruence.
Qed.

(** C3.  For every event whose ResourceProperties decode successfully with
    Message = m, Create returns the one-entry map
    {"Resource": "Created message: " ++ m} and a nil error. *)
Theorem Create_created_message
    (command : SpartaHelloWorldResource) (awsSession : Session)
    (event : CloudFormationLambdaEvent) (logger : Logger) (σ : State) (m : string) :
  decodedMessage command event σ = Some m →
  ∃ σ', run (Create command awsSession event logger) σ
        = Returns (Some {[ "Resource" := VString ("Created message: " ++ m) ]}, None) σ'.
Proof.
  intros Hdec.
  destruct (lifecycle_decoded (verbOf OpCreate) (resultOf OpCreate)
              command event logger σ m Hdec) as (σ' & Hrun & _).
  by exists σ'.
Qed.

(** C4 (the code departs from it).  The claim: for every event whose
    ResourceProperties decode successfully, Update and Delete return a nil
    payload and a nil error, which the dispatcher wraps into a success.
    Properties without a Message, [{}], decode successfully: [json.Unmarshal]
    returns a nil error.  Yet on them Update and Delete return nothing,
    neither (nil, nil) nor anything else: each panics with a nil pointer
    dereference when it reads [command.Message.Literal]. *)
Theorem Update_Delete_fault_after_decoding
    (awsSession : Session) (logger : Logger) (σ : State) :
  (∃ command' σ',
     run (decodeRequest emptyResource (anEvent "Update" noProperties)) σ
     = Returns (None, command') σ') ∧
  (∃ command' σ',
     run (decodeRequest emptyResource (anEvent "Delete" noProperties)) σ
     = Returns (None, command') σ') ∧
  run (Update emptyResource awsSession (anEvent "Update" noProperties) logger) σ
  = Panics NilPointerDereference ∧
  run (Delete emptyResource awsSession (anEvent "Delete" noProperties) logger) σ
  = Panics NilPointerDereference ∧
  ¬ (∃ σ', run (Update emptyResource awsSession (anEvent "Update" noProperties)
                  logger) σ = Returns (None, None) σ') ∧
  ¬ (∃ σ', run (Delete emptyResource awsSession (anEvent "Delete" noProperties)
                  logger) σ = Returns (None, None) σ').
Proof.
  assert (Hun : unpopulated emptyResource) by done.
  pose proof (lifecycle_unpopulated (verbOf OpUpdate) (resultOf OpUpdate)
                emptyResource (anEvent "Update" noProperties) logger σ Hun) as Hu.
  pose proof (lifecycle_unpopulated (verbOf OpDelete) (resultOf OpDelete)
                emptyResource (anEvent "Delete" noProperties) logger σ Hun) as Hd.
  change (run (Update emptyResource awsSession (anEvent "Update" noProperties)
                 logger) σ = Panics NilPointerDereference) in Hu.
  change (run (Delete emptyResource awsSession (anEvent "Delete" noProperties)
                 logger) σ = Panics NilPointerDereference) in Hd.
  split; [|split; [|split; [done|split; [done|split]]]].
  - destruct (decodeRequest_sim emptyResource (anEvent "Update" noProperties) σ Hun)
      as (σ' & c' & Hrun & _).
    by exists c', σ'.
  - destruct (decodeRequest_sim emptyResource (anEvent "Delete" noProperties) σ Hun)
      as (σ' & c' & Hrun & _).
    by exists c', σ'.
  - intros (σ' & Hret). congruence.
  - intros (σ' & Hret). congruence.
Qed.


(** C6.  The factory answers by exact match: for every string it returns a
    new empty SpartaHelloWorldResource if and only if the string is
    "Custom::sparta::HelloWorldResource"; for any other string it returns
    nil and constructs nothing. *)
Theorem customResourceFactory_exact_match (resourceType : string) (σ : State) :
  (resourceType = "Custom::sparta::HelloWorldResource" ↔
   ∃ l σ', run (customResourceFactory resourceType) σ = Returns (Some l) σ') ∧
  (resourceType = "Custom::sparta::HelloWorldResource" →
   run (customResourceFactory resourceType) σ
   = Returns (Some (length (heap σ))) (allocated σ (CResource emptyResource))) ∧
  (resourceType ≠ "Custom::sparta::HelloWorldResource" →
   run (customResourceFactory resourceType) σ = Returns None σ).
Proof.
  unfold customResourceFactory, spartaHelloWorldResourceType.
  destruct (String.eqb_spec resourceType "Custom::sparta::HelloWorldResource")
    as [->|Hne].
  - split; [|done]. split; [|done]. intros _. by eexists _, _.
  - split; [|done]. split; [done|]. by intros (l & σ' & [=]).
Qed.


(** C8 (the code departs from it).  The claim: for every event whose
    properties decode successfully, any number of invocations of Update or
    of Delete yield (nil, nil) each time.  Properties without a Message,
    [{}], decode successfully, and no invocation on them yields (nil, nil):
    the first one panics with a nil pointer dereference, and so does every
    run of one or more invocations in a row. *)
Theorem repeated_Update_Delete_fault
    (awsSession : Session) (logger : Logger) (σ : State) (n : nat) :
  decodeError emptyResource (anEvent "Update" noProperties) σ = None ∧
  decodeError emptyResource (anEvent "Delete" noProperties) σ = None ∧
  run (times (S n) (Update emptyResource awsSession (anEvent "Update" noProperties)
                      logger)) σ
  = Panics NilPointerDereference ∧
  run (times (S n) (Delete emptyResource awsSession (anEvent "Delete" noProperties)
                      logger)) σ
  = Panics NilPointerDereference ∧
  ∀ results σ',
    run (times (S n) (Update emptyResource awsSession (anEvent "Update" noProperties)
                        logger)) σ ≠ Returns results σ' ∧
    run (times (S n) (Delete emptyResource awsSession (anEvent "Delete" noProperties)
                        logger)) σ ≠ Returns results σ'.
Proof.
  assert (Hun : unpopulated emptyResource) by done.
  pose proof (lifecycle_unpopulated (verbOf OpUpdate) (resultOf OpUpdate)
                emptyResource (anEvent "Update" noProperties) logger σ Hun) as Hu.
  pose proof (lifecycle_unpopulated (verbOf OpDelete) (resultOf OpDelete)
                emptyResource (anEvent "Delete" noProperties) logger σ Hun) as Hd.
  change (run (Update emptyResource awsSession (anEvent "Update" noProperties)
                 logger) σ = Panics NilPointerDereference) in Hu.
  change (run (Delete emptyResource awsSession (anEvent "Delete" noProperties)
                 logger) σ = Panics NilPointerDereference) in Hd.
  assert (Herr : ∀ requestType,
            decodeError emptyResource (anEvent requestType noProperties) σ = None).
  { intros requestType. unfold decodeError.
    destruct (decodeRequest_sim emptyResource (anEvent requestType noProperties) σ Hun)
      as (σ' & c' & -> & _).
    done. }
  cbn [times]. rewrite !run_bind, Hu, Hd.
  repeat split; try done; apply Herr.
Qed.

(** C9.  For every context, with or without a logger, helloWorld returns
    the fixed greeting and a nil error; it writes no cell and leaves the
    provider table alone. *)
Theorem helloWorld_greeting (ctx : Context) (σ : State) :
  ∃ σ', run (helloWorld ctx) σ
        = Returns ("Hello World 👋. Welcome to AWS Lambda! 🙌🎉🍾", None) σ' ∧
        heap σ' = heap σ ∧
        customResourceProviders σ' = customResourceProviders σ.
Proof.
  destruct (helloWorld_run ctx σ) as (out & Hrun).
  eexists. split; [exact Hrun|]. done.
Qed.

(** C10.  The methods take the receiver by value.  Whatever the
    invocation, the caller's instance is as it was: the decoding writes to
    the method's own copy, a new cell; every cell that existed, but for the
    string expressions the instance points to, is unchanged, so for an
    instance with empty fields nothing at all is; and a further invocation
    on the same instance starts from the same fields. *)
Theorem receiver_by_value
    (op : Operation) (handler : loc) (command : SpartaHelloWorldResource)
    (awsSession : Session) (event : CloudFormationLambdaEvent) (logger : Logger)
    (σ σ' : State) (r : Payload * option error) :
  heap σ !! handler = Some (CResource command) →
  run (callMethod op handler awsSession event logger) σ = Returns r σ' →
  heap σ' !! handler = Some (CResource command) ∧
  (∃ command', heap σ' !! length (heap σ) = Some (CResource command')) ∧
  (∀ l, (l < length (heap σ))%nat → (∀ f, getPointer f command ≠ Some l) →
        heap σ' !! l = heap σ !! l) ∧
  (unpopulated command →
   ∀ l, (l < length (heap σ))%nat → heap σ' !! l = heap σ !! l) ∧
  (∀ op2 awsSession2 event2 logger2,
     run (callMethod op2 handler awsSession2 event2 logger2) σ'
     = run (method op2 command awsSession2 event2 logger2) σ').
Proof.
  intros Hh. unfold callMethod at 1.
  rewrite run_bind, (run_loadResource _ _ _ Hh), method_lifecycle.
  intros [C T P L]%lifecycle_untouched.
  pose proof (T _ _ Hh) as Hh'.
  split; [done|]. split; [done|]. split; [done|]. split.
  - intros [Hs Hm] l Hl. apply C; [done|]. intros []; simpl; congruence.
  - intros op2 s2 ev2 lg2. unfold callMethod.
    by rewrite run_bind, (run_loadResource _ _ _ Hh').
Qed.

End Claims.

(** ** The theorems at concrete inputs *)

Lemma Create_created_message_witness :
  decodedMessage (G := literalsOnly) emptyResource (anEvent "Create" messageHi)
    initialState = Some "hi" ∧
  ∃ σ', run (Create (G := literalsOnly) emptyResource aSession
               (anEvent "Create" messageHi) aLogger) initialState
        = Returns (Some {[ "Resource" := VString "Created message: hi" ]}, None) σ'.
Proof.
  split; [reflexivity|].
  apply (Create_created_message (G := literalsOnly) emptyResource aSession
           (anEvent "Create" messageHi) aLogger initialState "hi").
  reflexivity.
Defined.





Lemma receiver_by_value_witness :
  heap handlerBuilt !! 0%nat = Some (CResource emptyResource) ∧
  ∃ r σ', run (callMethod (G := literalsOnly) OpCreate 0%nat aSession
                 (anEvent "Create" messageHi) aLogger) handlerBuilt = Returns r σ' ∧
          heap σ' !! 0%nat = Some (CResource emptyResource).
Proof.
  split; [reflexivity|]. eexists _, _. split; [reflexivity|].
  destruct (receiver_by_value (G := literalsOnly) OpCreate 0%nat emptyResource
              aSession (anEvent "Create" messageHi) aLogger handlerBuilt _ _
              eq_refl eq_refl) as [Hhandler _].
  exact Hhandler.
Defined.

(** A receiver that already points to a string expression shares it with
    the method's copy: the decoding writes through the pointer.  This is the
    exception that [receiver_by_value] carves out. *)
Example shared_string_expression_overwritten :
  let σ := {| heap := [CResource (setMessage (Some 1%nat) emptyResource);
                       CStringExpr {| Func := None; Literal := "old" |}];
              output := []; customResourceProviders := [] |} in
  ∃ σ', run (callMethod (G := literalsOnly) OpUpdate 0%nat aSession
               (anEvent "Update" messageHi) aLogger) σ = Returns (None, None) σ' ∧
        heap σ' !! 0%nat = heap σ !! 0%nat ∧
        heap σ' !! 1%nat = Some (CStringExpr {| Func := None; Literal := "hi" |}).
Proof. simpl. eexists. split; [reflexivity|]. done. Qed.

(** ** More on the decoder *)

Section DecoderFacts.

Context {G : Libraries}.

Lemma setProp_other_Message o d :
  propMessage (setProp ServiceTokenField o d) = propMessage d.
Proof. done. Qed.

(** A member whose key does not name Message leaves the Message alone. *)
Lemma memberP_other kv d saved :
  fieldByName kv.1 ≠ Some fMessage →
  propMessage (memberP kv d saved).1 = propMessage d.
Proof.
  intros Hne. unfold memberP. destruct (fieldByName kv.1) as [[]|]; try done.
  - unfold stringExprFieldP.
    destruct kv.2; simpl; try done;
      by destruct (unmarshalStringFunc _ _).
  - unfold stringFieldP. by destruct kv.2.
Qed.

Lemma memberP_Message kv d saved :
  fieldByName kv.1 = Some fMessage →
  ∀ saved', (memberP kv d saved).2 = Next saved' →
  agrees (Some kv.2) (memberP kv d saved).1.
Proof.
  intros Hf saved'. unfold memberP. rewrite Hf. unfold stringExprFieldP.
  destruct kv.2; simpl; try done;
    destruct (unmarshalStringFunc _ _); simpl; by eauto.
Qed.

Lemma lastMessageFrom_Some v members : is_Some (lastMessageFrom (Some v) members).
Proof.
  revert v. induction members as [|kv rest IH]; intros v; simpl; [by eexists|].
  destruct (fieldByName kv.1) as [[]|]; apply IH.
Qed.

(** Without an error, the decoded Message is what the last member that
    names it says. *)
Lemma objectP_agrees members : ∀ acc d saved,
  agrees acc d →
  (objectP members d saved).2 = None →
  agrees (lastMessageFrom acc members) (objectP members d saved).1.
Proof.
  induction members as [|kv rest IH]; intros acc d saved Hacc; simpl; [done|].
  destruct (memberP kv d saved) as [d1 [saved'|e]] eqn:Hm; [|done].
  intros Hrest. apply IH; [|done].
  destruct (decide (fieldByName kv.1 = Some fMessage)) as [Hf|Hf].
  - rewrite Hf.
    pose proof (memberP_Message kv d saved Hf saved') as Hagree.
    rewrite Hm in Hagree. by apply Hagree.
  - pose proof (memberP_other kv d saved Hf) as Hsame. rewrite Hm in Hsame.
    simpl in Hsame.
    assert (Hacc1 : agrees acc d1).
    { unfold agrees in *. by rewrite Hsame. }
    by destruct (fieldByName kv.1) as [[]|].
Qed.

(** Members that do not name Message leave it as it was, error or not. *)
Lemma objectP_keeps_Message members : ∀ d saved,
  lastMessage members = None →
  propMessage (objectP members d saved).1 = propMessage d.
Proof.
  unfold lastMessage.
  induction members as [|kv rest IH]; intros d saved; simpl; [done|].
  destruct (decide (fieldByName kv.1 = Some fMessage)) as [Hf|Hf].
  - rewrite Hf. intros Hnone.
    destruct (lastMessageFrom_Some kv.2 rest) as [v Hv]. congruence.
  - intros Hnone.
    assert (Hrest : lastMessageFrom None rest = None).
    { by destruct (fieldByName kv.1) as [[]|]. }
    pose proof (memberP_other kv d saved Hf) as Hsame.
    destruct (memberP kv d saved) as [d1 [saved'|e]]; simpl in *.
    + by rewrite IH.
    + done.
Qed.

(** String values never make the decoder fail. *)
Lemma objectP_allStrings members : ∀ d,
  allStrings members = true → (objectP members d None).2 = None.
Proof.
  unfold allStrings.
  induction members as [|kv rest IH]; intros d; simpl; [done|].
  intros [Hkv Hrest]%andb_prop. unfold memberP.
  destruct kv.2 as [| | |s| |]; try done.
  destruct (fieldByName kv.1) as [[]|]; simpl; by apply IH.
Qed.

Lemma lastMessageFrom_allStrings members : ∀ acc,
  allStrings members = true →
  match acc with Some (JString _) | None => True | _ => False end →
  match lastMessageFrom acc members with
  | Some (JString _) | None => True
  | _ => False
  end.
Proof.
  unfold allStrings.
  induction members as [|kv rest IH]; intros acc; simpl; [done|].
  intros [Hkv Hrest]%andb_prop Hacc. apply IH; [done|].
  destruct (fieldByName kv.1) as [[]|]; try done.
  by destruct kv.2.
Qed.


End DecoderFacts.

(** ** More on the lifecycle methods *)

Section MethodFacts.

Context {G : Libraries}.

Lemma unpopulated_propsIn σ command :
  unpopulated command → propsIn σ command = propsOf command.
Proof. intros [Hs Hm]. unfold propsIn, propsOf. by rewrite Hs, Hm. Qed.

Lemma unpopulated_wellFormed σ command : unpopulated command → wellFormed σ command.
Proof.
  intros [Hs Hm]. split.
  - intros [] l; simpl; congruence.
  - intros l. congruence.
Qed.

Lemma wellFormed_represents σ command :
  wellFormed σ command →
  represents (allocated σ (CResource command)) (length (heap σ)) command
             (propsIn σ command).
Proof.
  intros [Hptr Hsep]. split.
  - apply allocated_lookup.
  - intros f. pose proof (Hptr f) as Hf.
    assert (Hgoal : pointsTo (heap σ) (getPointer f command)
                             (valueAt σ (getPointer f command))).
    { destruct (getPointer f command) as [l|]; simpl; [|done].
      destruct (Hf l eq_refl) as [x Hx]. by rewrite Hx. }
    apply (pointsTo_app _ _ _ [CResource command]) in Hgoal. by destruct f.
  - done.
  - done.
Qed.

Lemma decodeRequest_wellFormed command event σ :
  wellFormed σ command →
  ∃ σ' command',
    run (decodeRequest command event) σ
      = Returns ((UnmarshalP (ResourceProperties event) (propsIn σ command)).2,
                 command') σ' ∧
    represents σ' (length (heap σ)) command'
               (UnmarshalP (ResourceProperties event) (propsIn σ command)).1.
Proof.
  intros Hrep%wellFormed_represents. unfold decodeRequest.
  rewrite run_new, run_bind.
  destruct (json_Unmarshal_sim (ResourceProperties event) _ _ _ _ Hrep)
    as (σ1 & c1 & Hrun & Hrep1).
  rewrite Hrun, run_bind, (run_loadResource _ _ _ (rep_resource _ _ _ _ Hrep1)).
  by exists σ1, c1.
Qed.

Lemma decodeError_wellFormed command event σ :
  wellFormed σ command →
  decodeError command event σ
  = (UnmarshalP (ResourceProperties event) (propsIn σ command)).2.
Proof.
  intros Hwf. unfold decodeError.
  destruct (decodeRequest_wellFormed command event σ Hwf) as (σ1 & c1 & -> & _).
  by destruct (UnmarshalP _ _).2.
Qed.

(** The outcomes of a method on a receiver with sound pointers. *)
Lemma lifecycle_wellFormed verb result command event logger σ :
  wellFormed σ command →
  match UnmarshalP (ResourceProperties event) (propsIn σ command) with
  | (_, Some err) =>
      ∃ σ', run (lifecycle verb result command event logger) σ
              = Returns (None, Some err) σ'
  | (d, None) =>
      match propMessage d with
      | None => run (lifecycle verb result command event logger) σ
                  = Panics NilPointerDereference
      | Some x =>
          ∃ σ', run (lifecycle verb result command event logger) σ
                  = Returns (result (Literal x), None) σ'
      end
  end.
Proof.
  intros Hwf. rewrite lifecycle_run.
  destruct (decodeRequest_wellFormed command event σ Hwf) as (σ1 & c1 & -> & Hrep).
  destruct (UnmarshalP (ResourceProperties event) (propsIn σ command)) as [d [e|]];
    simpl in *; [by exists σ1|].
  pose proof (rep_pointers _ _ _ _ Hrep MessageField) as Hp. simpl in Hp.
  unfold finish.
  destruct (Message (request c1)) as [l|], (propMessage d) as [x|]; simpl in *;
    try done.
  rewrite run_bind, (run_loadStringExpr _ _ _ Hp). by eexists.
Qed.

(** On such a receiver the verdict of a method is the same in every store
    in which the receiver holds the same values. *)
Lemma verdict_wellFormed verb result command event logger σ1 σ2 :
  wellFormed σ1 command → wellFormed σ2 command →
  propsIn σ1 command = propsIn σ2 command →
  verdict (run (lifecycle verb result command event logger) σ1)
  = verdict (run (lifecycle verb result command event logger) σ2).
Proof.
  intros Hwf1 Hwf2 Hsame.
  pose proof (lifecycle_wellFormed verb result command event logger σ1 Hwf1) as H1.
  pose proof (lifecycle_wellFormed verb result command event logger σ2 Hwf2) as H2.
  rewrite <- Hsame in H2.
  destruct (UnmarshalP (ResourceProperties event) (propsIn σ1 command)) as [d [e|]].
  - destruct H1 as (σa & ->), H2 as (σb & ->). done.
  - destruct (propMessage d) as [x|].
    + destruct H1 as (σa & ->), H2 as (σb & ->). done.
    + by rewrite H1, H2.
Qed.

End MethodFacts.

(** ** Further properties of the code *)

Section Extras.

Context {G : Libraries}.

Lemma finish_run verb result command' logger σ :
  run (finish verb result command' logger) σ =
  match Message (request command') with
  | None => Panics NilPointerDereference
  | Some l =>
      match heap σ !! l with
      | Some (CStringExpr x) =>
          Returns (result (Literal x), None)
            {| heap := heap σ;
               output := output σ ++ [LoggerLine logger InfoLevel (Sprint [verb; Literal x])];
               customResourceProviders := customResourceProviders σ |}
      | _ => Stuck
      end
  end.
Proof.
  unfold finish. rewrite run_bind.
  destruct (Message (request command')) as [l|]; simpl; [|done].
  unfold run, loadStringExpr. by destruct (heap σ !! l) as [[c0|x|t0]|].
Qed.

(** X1.  A method that returns has either failed, with the error of the
    decoding, a nil payload and nothing logged, or succeeded, with a nil
    error and exactly one line logged: its verb and the literal of the
    Message that the decoding left in its copy of the receiver, at Info
    level, to the logger it was handed; the payload is built from that same
    literal. *)
Theorem methods_log_one_line
    (op : Operation) (command : SpartaHelloWorldResource) (awsSession : Session)
    (event : CloudFormationLambdaEvent) (logger : Logger) (σ σ' : State)
    (r : Payload * option error) :
  run (method op command awsSession event logger) σ = Returns r σ' →
  (∃ err, decodeError command event σ = Some err ∧
          r = (None, Some err) ∧ output σ' = output σ) ∨
  (∃ m, decodedMessage command event σ = Some m ∧
        decodeError command event σ = None ∧
        r = (resultOf op m, None) ∧
        output σ' = (output σ ++ [LoggerLine logger InfoLevel (verbOf op ++ m)])%list).
Proof.
  rewrite method_lifecycle, lifecycle_run. unfold decodeError, decodedMessage.
  destruct (run (decodeRequest command event) σ) as [[e c1] σ1| |] eqn:Hdec;
    try done.
  destruct (decodeRequest_untouched _ _ _ _ _ Hdec) as [_ Hout].
  destruct e as [err|].
  - intros [= <- <-]. left. by exists err.
  - rewrite finish_run.
    destruct (Message (request c1)) as [l|]; [|done].
    destruct (heap σ1 !! l) as [[c0|x|t0]|]; try done.
    intros [= <- <-]. right. exists (Literal x). simpl. by rewrite Hout.
Qed.

(** X2.  On a receiver as the factory builds it a method is never stuck,
    and it faults, with a nil pointer dereference, exactly when the decoding
    reports no error and leaves no Message. *)
Theorem fault_exactly_without_Message
    (op : Operation) (command : SpartaHelloWorldResource) (awsSession : Session)
    (event : CloudFormationLambdaEvent) (logger : Logger) (σ : State) :
  unpopulated command →
  (run (method op command awsSession event logger) σ = Panics NilPointerDereference ↔
   decodeError command event σ = None ∧ decodedMessage command event σ = None) ∧
  run (method op command awsSession event logger) σ ≠ Stuck.
Proof.
  intros Hun. rewrite method_lifecycle.
  pose proof (lifecycle_unpopulated (verbOf op) (resultOf op) command event
                logger σ Hun) as Hrun.
  rewrite (decodeError_wellFormed _ _ _ (unpopulated_wellFormed σ _ Hun)),
    (unpopulated_propsIn σ _ Hun), (decodedMessage_unpopulated _ _ _ Hun).
  destruct (UnmarshalP (ResourceProperties event) (propsOf command)) as [d [e|]];
    simpl.
  - destruct Hrun as (σ' & ->). split; [|done]. split; [done|]. by intros [? _].
  - destruct (propMessage d) as [x|]; simpl.
    + destruct Hrun as (σ' & ->). split; [|done]. split; [done|]. by intros [_ ?].
    + rewrite Hrun. done.
Qed.

(** X3.  When no member of the properties names Message, or the last one
    that does is null, no method succeeds on a receiver as the factory
    builds it: it returns an error or faults. *)
Theorem no_Message_never_succeeds
    (op : Operation) (command : SpartaHelloWorldResource) (awsSession : Session)
    (event : CloudFormationLambdaEvent) (logger : Logger) (σ : State)
    (members : list (string * JSON)) :
  unpopulated command →
  ResourceProperties event = Document (JObject members) →
  lastMessage members = None ∨ lastMessage members = Some JNull →
  ∀ payload σ',
    run (method op command awsSession event logger) σ ≠ Returns (payload, None) σ'.
Proof.
  intros Hun Hprops Hlast payload σ'. rewrite method_lifecycle.
  pose proof (lifecycle_unpopulated (verbOf op) (resultOf op) command event
                logger σ Hun) as Hrun.
  rewrite Hprops in Hrun. simpl in Hrun.
  pose proof (objectP_agrees members None (propsOf command) None eq_refl) as Hagree.
  fold (lastMessage members) in Hagree.
  destruct (objectP members (propsOf command) None) as [d [e|]]; simpl in *.
  - destruct Hrun as (σ1 & ->). done.
  - specialize (Hagree eq_refl).
    assert (Hnone : propMessage d = None).
    { by destruct Hlast as [Hl|Hl]; rewrite Hl in Hagree. }
    rewrite Hnone in Hrun. by rewrite Hrun.
Qed.

(** X4.  The last member that names Message decides: when the decoding
    reports no error, a method on a receiver as the factory builds it
    succeeds with that member's string, faults when that member is null or
    there is none, and succeeds with some literal when go-cloudformation
    accepted another kind of value. *)
Theorem last_Message_decides
    (op : Operation) (command : SpartaHelloWorldResource) (awsSession : Session)
    (event : CloudFormationLambdaEvent) (logger : Logger) (σ : State)
    (members : list (string * JSON)) :
  unpopulated command →
  ResourceProperties event = Document (JObject members) →
  decodeError command event σ = None →
  match lastMessage members with
  | None | Some JNull =>
      run (method op command awsSession event logger) σ = Panics NilPointerDereference
  | Some (JString m) =>
      ∃ σ', run (method op command awsSession event logger) σ
            = Returns (resultOf op m, None) σ'
  | Some _ =>
      ∃ m σ', run (method op command awsSession event logger) σ
              = Returns (resultOf op m, None) σ'
  end.
Proof.
  intros Hun Hprops Herr. rewrite method_lifecycle.
  pose proof (lifecycle_unpopulated (verbOf op) (resultOf op) command event
                logger σ Hun) as Hrun.
  rewrite (decodeError_wellFormed _ _ _ (unpopulated_wellFormed σ _ Hun)),
    (unpopulated_propsIn σ _ Hun) in Herr.
  rewrite Hprops in Hrun, Herr. simpl in Hrun, Herr.
  pose proof (objectP_agrees members None (propsOf command) None eq_refl Herr)
    as Hagree.
  fold (lastMessage members) in Hagree.
  destruct (objectP members (propsOf command) None) as [d e]; simpl in *.
  subst e.
  destruct (lastMessage members) as [[]|]; simpl in Hagree;
    try (by rewrite Hagree in Hrun);
    destruct Hagree as [x Hx]; rewrite Hx in Hrun;
    destruct Hrun as (σ' & Hrun); by exists (Literal x), σ'.
Qed.

(** X5.  Properties whose values are all strings never fail to decode: on
    a receiver as the factory builds it a method succeeds with the string of
    the last member that names Message, and faults when no member does. *)
Theorem string_properties_outcome
    (op : Operation) (command : SpartaHelloWorldResource) (awsSession : Session)
    (event : CloudFormationLambdaEvent) (logger : Logger) (σ : State)
    (members : list (string * JSON)) :
  unpopulated command →
  ResourceProperties event = Document (JObject members) →
  allStrings members = true →
  match lastMessage members with
  | Some (JString m) =>
      ∃ σ', run (method op command awsSession event logger) σ
            = Returns (resultOf op m, None) σ'
  | _ =>
      run (method op command awsSession event logger) σ = Panics NilPointerDereference
  end.
Proof.
  intros Hun Hprops Hall. rewrite method_lifecycle.
  pose proof (lifecycle_unpopulated (verbOf op) (resultOf op) command event
                logger σ Hun) as Hrun.
  rewrite Hprops in Hrun. simpl in Hrun.
  pose proof (objectP_allStrings members (propsOf command) Hall) as Herr.
  pose proof (objectP_agrees members None (propsOf command) None eq_refl Herr)
    as Hagree.
  pose proof (lastMessageFrom_allStrings members None Hall I) as Hshape.
  fold (lastMessage members) in Hagree, Hshape.
  destruct (objectP members (propsOf command) None) as [d e]; simpl in *.
  subst e.
  destruct (lastMessage members) as [[]|]; simpl in Hagree; try done;
    by rewrite Hagree in Hrun.
Qed.


(** X7.  The decoding starts from the receiver's own fields: on a receiver
    that already holds a Message, as the one main.go:149 builds, properties
    that decode without error and in which no member names Message make the
    method succeed with the receiver's Message. *)
Theorem absent_Message_keeps_receivers
    (op : Operation) (command : SpartaHelloWorldResource) (awsSession : Session)
    (event : CloudFormationLambdaEvent) (logger : Logger) (σ : State)
    (members : list (string * JSON)) (l : loc) (x : StringExpr) :
  wellFormed σ command →
  Message (request command) = Some l →
  heap σ !! l = Some (CStringExpr x) →
  ResourceProperties event = Document (JObject members) →
  lastMessage members = None →
  decodeError command event σ = None →
  ∃ σ', run (method op command awsSession event logger) σ
        = Returns (resultOf op (Literal x), None) σ'.
Proof.
  intros Hwf Hm Hl Hprops Hlast Herr. rewrite method_lifecycle.
  pose proof (lifecycle_wellFormed (verbOf op) (resultOf op) command event
                logger σ Hwf) as Hrun.
  rewrite (decodeError_wellFormed _ _ _ Hwf) in Herr.
  rewrite Hprops in Hrun, Herr. simpl in Hrun, Herr.
  pose proof (objectP_keeps_Message members (propsIn σ command) None Hlast) as Hkeep.
  destruct (objectP members (propsIn σ command) None) as [d e]; simpl in *.
  subst e. rewrite Hkeep in Hrun. unfold valueAt in Hrun.
  by rewrite Hm, Hl in Hrun.
Qed.

(** X8.  Events are handled independently: on a handler as the factory
    builds it, what an invocation returns, or whether it faults, does not
    depend on the invocations made through the same handler before it. *)
Theorem events_handled_independently
    (handler : loc) (command : SpartaHelloWorldResource)
    (op1 op2 : Operation) (awsSession1 awsSession2 : Session)
    (event1 event2 : CloudFormationLambdaEvent) (logger1 logger2 : Logger)
    (σ σ1 : State) (r1 : Payload * option error) :
  heap σ !! handler = Some (CResource command) →
  unpopulated command →
  run (callMethod op1 handler awsSession1 event1 logger1) σ = Returns r1 σ1 →
  verdict (run (callMethod op2 handler awsSession2 event2 logger2) σ1)
  = verdict (run (callMethod op2 handler awsSession2 event2 logger2) σ).
Proof.
  intros Hh Hun. unfold callMethod.
  rewrite !run_bind, (run_loadResource _ _ _ Hh), method_lifecycle.
  intros [_ T _ _]%lifecycle_untouched.
  rewrite (run_loadResource _ _ _ (T _ _ Hh)), method_lifecycle.
  apply verdict_wellFormed; try by apply unpopulated_wellFormed.
  by rewrite !unpopulated_propsIn.
Qed.


(** X10.  The three methods accept, reject and fault on the same events:
    for any receiver and store, one of them returns a given error, faults,
    or succeeds exactly when any other does. *)
Theorem methods_agree
    (op1 op2 : Operation) (command : SpartaHelloWorldResource)
    (awsSession : Session) (event : CloudFormationLambdaEvent) (logger : Logger)
    (σ : State) :
  (∀ err, (∃ σ', run (method op1 command awsSession event logger) σ
                   = Returns (None, Some err) σ') ↔
          (∃ σ', run (method op2 command awsSession event logger) σ
                   = Returns (None, Some err) σ')) ∧
  (∀ v, run (method op1 command awsSession event logger) σ = Panics v ↔
        run (method op2 command awsSession event logger) σ = Panics v) ∧
  ((∃ payload σ', run (method op1 command awsSession event logger) σ
                    = Returns (payload, None) σ') ↔
   (∃ payload σ', run (method op2 command awsSession event logger) σ
                    = Returns (payload, None) σ')).
Proof.
  rewrite !method_lifecycle, !lifecycle_run.
  destruct (run (decodeRequest command event) σ) as [[[e|] c1] σ1| |]; try done.
  rewrite !finish_run.
  destruct (Message (request c1)) as [l|]; [|done].
  destruct (heap σ1 !! l) as [[c0|x|t0]|]; try done.
  split; [|split].
  - intros err; split; by intros (σ' & [=]).
  - intros v; split; by intros [=].
  - split; intros _; by eexists _, _.
Qed.

Lemma fieldByName_recase mask : fieldByName (recase mask "Message") = Some fMessage.
Proof. do 7 (destruct mask as [|[] mask]; try reflexivity). Qed.

(** X11.  The methods find the Message under any capitalisation of its
    key: whichever letters of "Message" are written in the other case, on a
    receiver as the factory builds it properties with that one key and the
    string m make every method succeed with m. *)
Theorem Message_any_capitalisation
    (op : Operation) (command : SpartaHelloWorldResource) (awsSession : Session)
    (requestType : string) (logger : Logger) (σ : State)
    (mask : list bool) (m : string) :
  unpopulated command →
  ∃ σ', run (method op command awsSession
               (eventWith requestType [(recase mask "Message", JString m)]) logger) σ
        = Returns (resultOf op m, None) σ'.
Proof.
  intros Hun. rewrite method_lifecycle.
  pose proof (lifecycle_unpopulated (verbOf op) (resultOf op) command
                (eventWith requestType [(recase mask "Message", JString m)])
                logger σ Hun) as Hrun.
  cbn [eventWith ResourceProperties UnmarshalP objectP] in Hrun.
  unfold memberP in Hrun. cbn [fst snd] in Hrun.
  rewrite fieldByName_recase in Hrun. exact Hrun.
Qed.

(** X12.  What helloWorld logs: a line to the logger of the context when
    there is one; then one line more, to the request entry when there is
    one, else a warning to the logger, else, with neither, a line on standard
    output.  It logs nothing else. *)
Theorem helloWorld_lines (ctx : Context) (σ : State) :
  ∃ out,
    run (helloWorld ctx) σ
    = Returns (helloWorldGreeting, None)
        {| heap := heap σ; output := output σ ++ out;
           customResourceProviders := customResourceProviders σ |} ∧
    length out = match loggerIn ctx with Some _ => 2%nat | None => 1%nat end ∧
    (∀ l, LoggerLine l InfoLevel "Accessing structured logger 🙌" ∈ out ↔
          loggerIn ctx = Some l) ∧
    (∀ e, EntryLine e InfoLevel "Accessing request-scoped log, with request ID field"
            ∈ out ↔ entryIn ctx = Some e) ∧
    (∀ l, LoggerLine l WarnLevel "Failed to access scoped logger" ∈ out ↔
          loggerIn ctx = Some l ∧ entryIn ctx = None) ∧
    (Printed "Failed to access any logger" ∈ out ↔
     loggerIn ctx = None ∧ entryIn ctx = None).
Proof.
  unfold helloWorld, loggerIn, entryIn.
  destruct (ctx ContextKeyLogger), (ctx ContextKeyRequestLogger);
    unfold run, mbind, M_bind; simpl; rewrite <- ?app_assoc; simpl;
    eexists; (split; [reflexivity|]); simpl;
    (split; [done|]);
    repeat split; intros; rewrite ?elem_of_cons, ?elem_of_nil in *;
    intuition (simplify_eq; auto).
Qed.

(** X13.  Properties that are the JSON null are accepted like an object
    without members, for any receiver; on a receiver as the factory builds
    it every method then faults. *)
Theorem null_properties_fault
    (op : Operation) (command : SpartaHelloWorldResource) (awsSession : Session)
    (requestType : string) (logger : Logger) (σ : State) :
  run (method op command awsSession (anEvent requestType (Document JNull)) logger) σ
  = run (method op command awsSession (eventWith requestType []) logger) σ ∧
  (unpopulated command →
   run (method op command awsSession (anEvent requestType (Document JNull)) logger) σ
   = Panics NilPointerDereference).
Proof.
  split; [by rewrite !method_lifecycle|].
  intros Hun. rewrite method_lifecycle.
  exact (lifecycle_unpopulated (verbOf op) (resultOf op) command
           (anEvent requestType (Document JNull)) logger σ Hun).
Qed.

(** X14.  Create can be repeated like Update and Delete: on a receiver as
    the factory builds it, any number of invocations in a row on an event
    that decodes to the Message m return the same payload each time, leave
    every cell that existed and the provider table as they were, and log
    one line each. *)
Theorem Create_repeatable
    (command : SpartaHelloWorldResource) (awsSession : Session)
    (event : CloudFormationLambdaEvent) (logger : Logger) (σ : State)
    (m : string) (n : nat) :
  unpopulated command →
  decodedMessage command event σ = Some m →
  ∃ σ', run (times n (Create command awsSession event logger)) σ
        = Returns (replicate n
                     (Some {[ "Resource" := VString ("Created message: " ++ m) ]},
                      None)) σ' ∧
        (∀ l, (l < length (heap σ))%nat → heap σ' !! l = heap σ !! l) ∧
        customResourceProviders σ' = customResourceProviders σ ∧
        output σ' = (output σ
                     ++ replicate n (LoggerLine logger InfoLevel ("create: " ++ m)))%list.
Proof.
  intros Hun Hdec.
  assert (Hany : ∀ σ2, decodedMessage command event σ2 = Some m).
  { intros σ2. rewrite decodedMessage_unpopulated by done.
    by rewrite <- (decodedMessage_unpopulated command event σ). }
  exact (times_lifecycle (verbOf OpCreate) (resultOf OpCreate) command event
           logger m Hun Hany n σ).
Qed.

(** X15.  On an event that decodes to the Message m, Update and Delete
    return a nil payload and a nil error, for any receiver, and log one
    line each, "update: " or "delete: " followed by m. *)
Theorem Update_Delete_empty_success
    (command : SpartaHelloWorldResource) (awsSession : Session)
    (event : CloudFormationLambdaEvent) (logger : Logger) (σ : State) (m : string) :
  decodedMessage command event σ = Some m →
  (∃ σ', run (Update command awsSession event logger) σ = Returns (None, None) σ' ∧
         output σ' = (output σ ++ [LoggerLine logger InfoLevel ("update: " ++ m)])%list) ∧
  (∃ σ', run (Delete command awsSession event logger) σ = Returns (None, None) σ' ∧
         output σ' = (output σ ++ [LoggerLine logger InfoLevel ("delete: " ++ m)])%list).
Proof.
  intros Hdec.
  destruct (lifecycle_decoded (verbOf OpUpdate) (resultOf OpUpdate)
              command event logger σ m Hdec) as (σu & Hu & _ & Hou).
  destruct (lifecycle_decoded (verbOf OpDelete) (resultOf OpDelete)
              command event logger σ m Hdec) as (σd & Hd & _ & Hod).
  split; [by exists σu | by exists σd].
Qed.

(** X16.  Update and Delete can be repeated: on a receiver as the factory
    builds it and an event that decodes to the Message m, any number of
    invocations in a row return (nil, nil) each time and leave behind no
    state: every cell that existed is as it was, the provider table
    likewise, and the only trace is one log line per invocation. *)
Theorem Update_Delete_idempotent
    (command : SpartaHelloWorldResource) (awsSession : Session)
    (event : CloudFormationLambdaEvent) (logger : Logger) (σ : State)
    (m : string) (n : nat) :
  unpopulated command →
  decodedMessage command event σ = Some m →
  (∃ σ', run (times n (Update command awsSession event logger)) σ
           = Returns (replicate n (None, None)) σ' ∧
         (∀ l, (l < length (heap σ))%nat → heap σ' !! l = heap σ !! l) ∧
         customResourceProviders σ' = customResourceProviders σ ∧
         output σ' = (output σ
                      ++ replicate n (LoggerLine logger InfoLevel ("update: " ++ m)))%list) ∧
  (∃ σ', run (times n (Delete command awsSession event logger)) σ
           = Returns (replicate n (None, None)) σ' ∧
         (∀ l, (l < length (heap σ))%nat → heap σ' !! l = heap σ !! l) ∧
         customResourceProviders σ' = customResourceProviders σ ∧
         output σ' = (output σ
                      ++ replicate n (LoggerLine logger InfoLevel ("delete: " ++ m)))%list).
Proof.
  intros Hun Hdec.
  assert (Hany : ∀ σ2, decodedMessage command event σ2 = Some m).
  { intros σ2. rewrite decodedMessage_unpopulated by done.
    by rewrite <- (decodedMessage_unpopulated command event σ). }
  split.
  - exact (times_lifecycle (verbOf OpUpdate) (resultOf OpUpdate) command event
             logger m Hun Hany n σ).
  - exact (times_lifecycle (verbOf OpDelete) (resultOf OpDelete) command event
             logger m Hun Hany n σ).
Qed.

End Extras.

(** ** The further properties at concrete inputs *)

Lemma methods_log_one_line_witness :
  ∃ r σ',
    run (Update (G := literalsOnly) emptyResource aSession
           (anEvent "Update" messageHi) aLogger) initialState = Returns r σ' ∧
    ((∃ err, decodeError (G := literalsOnly) emptyResource
               (anEvent "Update" messageHi) initialState = Some err ∧
             r = (None, Some err) ∧ output σ' = output initialState) ∨
     (∃ m, decodedMessage (G := literalsOnly) emptyResource
             (anEvent "Update" messageHi) initialState = Some m ∧
           decodeError (G := literalsOnly) emptyResource
             (anEvent "Update" messageHi) initialState = None ∧
           r = (resultOf OpUpdate m, None) ∧
           output σ' = (output initialState
                        ++ [LoggerLine aLogger InfoLevel (verbOf OpUpdate ++ m)])%list)).
Proof.
  eexists _, _. split; [reflexivity|].
  apply (methods_log_one_line (G := literalsOnly) OpUpdate emptyResource aSession
           (anEvent "Update" messageHi) aLogger initialState).
  reflexivity.
Defined.

Lemma fault_exactly_without_Message_witness :
  unpopulated emptyResource ∧
  (run (Delete (G := literalsOnly) emptyResource aSession
          (anEvent "Delete" noProperties) aLogger) initialState
   = Panics NilPointerDereference ↔
   decodeError (G := literalsOnly) emptyResource (anEvent "Delete" noProperties)
     initialState = None ∧
   decodedMessage (G := literalsOnly) emptyResource (anEvent "Delete" noProperties)
     initialState = None).
Proof.
  split; [done|].
  destruct (fault_exactly_without_Message (G := literalsOnly) OpDelete emptyResource
              aSession (anEvent "Delete" noProperties) aLogger initialState
              (conj eq_refl eq_refl)) as [Hiff _].
  exact Hiff.
Defined.

Lemma no_Message_never_succeeds_witness :
  unpopulated emptyResource ∧
  lastMessage withdrawnMessage = Some JNull ∧
  ∀ payload σ',
    run (Create (G := literalsOnly) emptyResource aSession
           (eventWith "Create" withdrawnMessage) aLogger) initialState
    ≠ Returns (payload, None) σ'.
Proof.
  split; [done|]. split; [reflexivity|].
  apply (no_Message_never_succeeds (G := literalsOnly) OpCreate emptyResource aSession
           (eventWith "Create" withdrawnMessage) aLogger initialState withdrawnMessage).
  - split; reflexivity.
  - reflexivity.
  - right. reflexivity.
Defined.

Lemma last_Message_decides_witness :
  unpopulated emptyResource ∧
  decodeError (G := literalsOnly) emptyResource (eventWith "Update" twoMessages)
    initialState = None ∧
  lastMessage twoMessages = Some (JString "second") ∧
  ∃ σ', run (Create (G := literalsOnly) emptyResource aSession
               (eventWith "Update" twoMessages) aLogger) initialState
        = Returns (createdPayload "second", None) σ'.
Proof.
  split; [done|]. split; [reflexivity|]. split; [reflexivity|].
  exact (last_Message_decides (G := literalsOnly) OpCreate emptyResource aSession
           (eventWith "Update" twoMessages) aLogger initialState twoMessages
           (conj eq_refl eq_refl) eq_refl eq_refl).
Defined.

Lemma string_properties_outcome_witness :
  unpopulated emptyResource ∧
  allStrings twoMessages = true ∧
  ∃ σ', run (Delete (G := literalsOnly) emptyResource aSession
               (eventWith "Delete" twoMessages) aLogger) initialState
        = Returns (None, None) σ'.
Proof.
  split; [done|]. split; [reflexivity|].
  exact (string_properties_outcome (G := literalsOnly) OpDelete emptyResource aSession
           (eventWith "Delete" twoMessages) aLogger initialState twoMessages
           (conj eq_refl eq_refl) eq_refl eq_refl).
Defined.

Lemma absent_Message_keeps_receivers_witness :
  wellFormed activatedStore activated ∧
  decodeError (G := literalsOnly) activated (anEvent "Create" serviceTokenOnly)
    activatedStore = None ∧
  ∃ σ', run (Create (G := literalsOnly) activated aSession
               (anEvent "Create" serviceTokenOnly) aLogger) activatedStore
        = Returns (createdPayload "Custom resource activated!", None) σ'.
Proof.
  assert (Hwf : wellFormed activatedStore activated).
  { split.
    - intros [] l; simpl; intros [= <-]. by eexists.
    - intros l. simpl. discriminate. }
  split; [exact Hwf|]. split; [reflexivity|].
  exact (absent_Message_keeps_receivers (G := literalsOnly) OpCreate activated
           aSession (anEvent "Create" serviceTokenOnly) aLogger activatedStore
           _ 0%nat _ Hwf eq_refl eq_refl eq_refl eq_refl eq_refl).
Defined.

Lemma events_handled_independently_witness :
  heap handlerBuilt !! 0%nat = Some (CResource emptyResource) ∧
  unpopulated emptyResource ∧
  ∃ r1 σ1,
    run (callMethod (G := literalsOnly) OpCreate 0%nat aSession
           (anEvent "Create" messageHi) aLogger) handlerBuilt = Returns r1 σ1 ∧
    verdict (run (callMethod (G := literalsOnly) OpUpdate 0%nat aSession
                    (anEvent "Update" noProperties) aLogger) σ1)
    = verdict (run (callMethod (G := literalsOnly) OpUpdate 0%nat aSession
                      (anEvent "Update" noProperties) aLogger) handlerBuilt).
Proof.
  split; [reflexivity|]. split; [done|]. eexists _, _. split; [reflexivity|].
  apply (events_handled_independently (G := literalsOnly) 0%nat emptyResource
           OpCreate OpUpdate aSession aSession (anEvent "Create" messageHi)
           (anEvent "Update" noProperties) aLogger aLogger handlerBuilt _ _
           eq_refl (conj eq_refl eq_refl) eq_refl).
Defined.


Lemma Create_repeatable_witness :
  unpopulated emptyResource ∧
  decodedMessage (G := literalsOnly) emptyResource (anEvent "Create" messageHi)
    initialState = Some "hi" ∧
  ∃ σ', run (times 2 (Create (G := literalsOnly) emptyResource aSession
                        (anEvent "Create" messageHi) aLogger)) initialState
        = Returns [(createdPayload "hi", None); (createdPayload "hi", None)] σ' ∧
        output σ' = [LoggerLine aLogger InfoLevel "create: hi";
                     LoggerLine aLogger InfoLevel "create: hi"].
Proof.
  split; [done|]. split; [reflexivity|].
  destruct (Create_repeatable (G := literalsOnly) emptyResource aSession
              (anEvent "Create" messageHi) aLogger initialState "hi" 2
              (conj eq_refl eq_refl) eq_refl) as (σ' & Hrun & _ & _ & Hout).
  exists σ'. split; [exact Hrun | exact Hout].
Defined.

Lemma Update_Delete_empty_success_witness :
  decodedMessage (G := literalsOnly) emptyResource (anEvent "Update" messageHi)
    initialState = Some "hi" ∧
  ∃ σ', run (Update (G := literalsOnly) emptyResource aSession
               (anEvent "Update" messageHi) aLogger) initialState
        = Returns (None, None) σ' ∧
        output σ' = [LoggerLine aLogger InfoLevel "update: hi"].
Proof.
  split; [reflexivity|].
  destruct (Update_Delete_empty_success (G := literalsOnly) emptyResource aSession
              (anEvent "Update" messageHi) aLogger initialState "hi" eq_refl)
    as [Hupdate _].
  exact Hupdate.
Defined.

Lemma Update_Delete_idempotent_witness :
  unpopulated emptyResource ∧
  decodedMessage (G := literalsOnly) emptyResource (anEvent "Update" messageHi)
    initialState = Some "hi" ∧
  ∃ σ', run (times 3 (Update (G := literalsOnly) emptyResource aSession
                        (anEvent "Update" messageHi) aLogger)) initialState
        = Returns [(None, None); (None, None); (None, None)] σ'.
Proof.
  split; [done|]. split; [reflexivity|].
  destruct (Update_Delete_idempotent (G := literalsOnly) emptyResource aSession
              (anEvent "Update" messageHi) aLogger initialState "hi" 3
              (conj eq_refl eq_refl) eq_refl) as [(σ' & Hrun & _) _].
  exists σ'. exact Hrun.
Defined.

Lemma Message_any_capitalisation_witness :
  unpopulated emptyResource ∧
  recase [true; false; false; true] "Message" = "mesSage" ∧
  ∃ σ', run (Create (G := literalsOnly) emptyResource aSession
               (eventWith "Create" [("mesSage", JString "hi")]) aLogger) initialState
        = Returns (createdPayload "hi", None) σ'.
Proof.
  split; [done|]. split; [reflexivity|].
  exact (Message_any_capitalisation (G := literalsOnly) OpCreate emptyResource aSession
           "Create" aLogger initialState [true; false; false; true] "hi"
           (conj eq_refl eq_refl)).
Defined.
